(** * The sequential ERC-721 batch-transfer hook, [useERC721MultiTransfer]

    A shallow embedding of [src/hooks/useERC721MultiTransfer.ts].

    The hook owns five pieces of React state and three refs, reads the
    wallet signer ([useWriteContract]) and the chain client
    ([usePublicClient]), and reacts through callbacks and effects.  Here

    - the React state, the refs and the observable state of the signer are
      the fields of one record, [Hook];
    - every callback and every effect body is a function
      [Hook -> Hook * list Effect]: the new state together with the calls it
      makes to its collaborators ([writeContract], [resetWrite],
      [waitForTransactionReceipt], [setTimeout]);
    - a callback or effect reads the React state through the closure of the
      render that created it, and the refs and functional updates as they
      are when it runs.  [skip s], [hashEffect s] and the like are the calls
      made from the render of [s] itself; [skip_of v s], [hashEffect_of v s]
      and the like are the same bodies called from a render [v] while the
      state is [s]; a timer carries the values its closure captured
      ([Render]).

    Numbers are [Z] (the guard token uses the sentinel [-1]); the queue holds
    [bigint] token ids, also [Z].

    The last part of the definitions embeds [shortenAddress] of the address
    utilities, a pure function on strings. *)

From Stdlib Require Import ZArith String List Bool Lia.
From stdpp Require Import base decidable countable gmap strings list.
Import ListNotations.

Local Open Scope Z_scope.

(** ** Data model *)

(** [Address] and [Hash] are viem's [`0x${string}`]: the text after the
    [0x] prefix is kept.  Such a string is never empty, so a [Hash] is always
    truthy and [!currentHash] only tests for [undefined]. *)
Record Address := mkAddress { address_hex : string }.
Record Hash := mkHash { hash_hex : string }.

#[global] Instance Hash_eq_dec : EqDecision Hash.
Proof. solve_decision. Defined.

#[global] Instance Hash_countable : Countable Hash.
Proof. by apply (inj_countable' hash_hex mkHash); intros []. Defined.

#[global] Instance Address_eq_dec : EqDecision Address.
Proof. solve_decision. Defined.

(** The literal ["0x" as Hash] of [skip]: the empty handle. *)
Definition hash_0x : Hash := mkHash "".

(** [status: "pending" | "success" | "failed"] *)
Inductive Status := pending | success | failed.

#[global] Instance Status_eq_dec : EqDecision Status.
Proof. solve_decision. Defined.

(** [interface TransferResult].  [tokenId] is what [queue[currentIndex]]
    evaluated to, which is [undefined] ([None]) outside the queue. *)
Record TransferResult := mkTransferResult {
  tokenId : option Z;
  hash : Hash;
  status : Status
}.

#[global] Instance TransferResult_eq_dec : EqDecision TransferResult.
Proof. solve_decision. Defined.

(** [interface ERC721MultiTransferParams] *)
Record ERC721MultiTransferParams := mkParams {
  p_contractAddress : Address;
  p_to : Address;
  tokenIds : list Z
}.

(** The session parameters held in the [transferParams] state. *)
Record TransferParams := mkTransferParams {
  contractAddress : Address;
  to : Address;
  from : Address
}.

#[global] Instance TransferParams_eq_dec : EqDecision TransferParams.
Proof. solve_decision. Defined.

(** The error object of the signer; only its presence matters. *)
Definition WriteError := string.

(** What [useWriteContract] exposes: [data], [isPending], [error]. *)
Record WriteState := mkWrite {
  data : option Hash;
  isPending : bool;
  error : option WriteError
}.

(** The signer at rest, as after [reset()]. *)
Definition write_idle : WriteState :=
  {| data := None; isPending := false; error := None |}.

(** The signer once [writeContract] has been called: awaiting a signature,
    previous result and error dropped. *)
Definition write_pending : WriteState :=
  {| data := None; isPending := true; error := None |}.

(** State and refs of one hook instance, with the signer it reads. *)
Record Hook := mkHook {
  queue : list Z;
  currentIndex : Z;
  isTransferring : bool;
  completedTransfers : list TransferResult;
  transferParams : option TransferParams;
  processedHashesRef : gset Hash;
  lastExecutedIndexRef : Z;
  isExecutingRef : bool;
  write : WriteState
}.

(** A freshly mounted hook. *)
Definition initial : Hook :=
  {| queue := [];
     currentIndex := 0;
     isTransferring := false;
     completedTransfers := [];
     transferParams := None;
     processedHashesRef := ∅;
     lastExecutedIndexRef := -1;
     isExecutingRef := false;
     write := write_idle |}.

(** What [executeCurrentTransfer] closes over: the dependencies of its
    [useCallback]. *)
Record Render := mkRender {
  r_transferParams : option TransferParams;
  r_currentIndex : Z;
  r_queue : list Z
}.

#[global] Instance Render_eq_dec : EqDecision Render.
Proof. solve_decision. Defined.

(** Calls made to the collaborators. *)
Inductive Effect :=
| WriteContract (address : Address) (args_from args_to : Address)
                (args_tokenId : option Z)
| ResetWrite
| WaitForTransactionReceipt (h : Hash)
| SetTimeout (ms : Z) (c : Render).

#[global] Instance Effect_eq_dec : EqDecision Effect.
Proof. solve_decision. Defined.

(** ** State setters *)

Definition setQueue (q : list Z) (s : Hook) : Hook :=
  mkHook q (currentIndex s) (isTransferring s) (completedTransfers s)
         (transferParams s) (processedHashesRef s) (lastExecutedIndexRef s)
         (isExecutingRef s) (write s).

Definition setCurrentIndex (i : Z) (s : Hook) : Hook :=
  mkHook (queue s) i (isTransferring s) (completedTransfers s)
         (transferParams s) (processedHashesRef s) (lastExecutedIndexRef s)
         (isExecutingRef s) (write s).

Definition setIsTransferring (b : bool) (s : Hook) : Hook :=
  mkHook (queue s) (currentIndex s) b (completedTransfers s)
         (transferParams s) (processedHashesRef s) (lastExecutedIndexRef s)
         (isExecutingRef s) (write s).

Definition setCompletedTransfers
    (f : list TransferResult -> list TransferResult) (s : Hook) : Hook :=
  mkHook (queue s) (currentIndex s) (isTransferring s)
         (f (completedTransfers s))
         (transferParams s) (processedHashesRef s) (lastExecutedIndexRef s)
         (isExecutingRef s) (write s).

Definition setTransferParams (p : option TransferParams) (s : Hook) : Hook :=
  mkHook (queue s) (currentIndex s) (isTransferring s) (completedTransfers s)
         p (processedHashesRef s) (lastExecutedIndexRef s)
         (isExecutingRef s) (write s).

Definition set_processedHashesRef (hs : gset Hash) (s : Hook) : Hook :=
  mkHook (queue s) (currentIndex s) (isTransferring s) (completedTransfers s)
         (transferParams s) hs (lastExecutedIndexRef s)
         (isExecutingRef s) (write s).

Definition set_lastExecutedIndexRef (i : Z) (s : Hook) : Hook :=
  mkHook (queue s) (currentIndex s) (isTransferring s) (completedTransfers s)
         (transferParams s) (processedHashesRef s) i
         (isExecutingRef s) (write s).

Definition set_isExecutingRef (b : bool) (s : Hook) : Hook :=
  mkHook (queue s) (currentIndex s) (isTransferring s) (completedTransfers s)
         (transferParams s) (processedHashesRef s) (lastExecutedIndexRef s)
         b (write s).

Definition set_write (w : WriteState) (s : Hook) : Hook :=
  mkHook (queue s) (currentIndex s) (isTransferring s) (completedTransfers s)
         (transferParams s) (processedHashesRef s) (lastExecutedIndexRef s)
         (isExecutingRef s) w.

(** ** Reading the queue *)

(** [queue.length] *)
Definition len {A} (l : list A) : Z := Z.of_nat (length l).

(** [queue[i]]: [undefined] outside [0 .. length-1]. *)
Definition queue_at (q : list Z) (i : Z) : option Z :=
  if i <? 0 then None else nth_error q (Z.to_nat i).

(** JavaScript truthiness of an optional object. *)
Definition defined {A} (o : option A) : bool :=
  match o with Some _ => true | None => false end.

(** ** The signer, as the hook drives it *)

(** [writeContract({address, abi, functionName: "safeTransferFrom", args})] *)
Definition writeContract (address args_from args_to : Address)
    (args_tokenId : option Z) (s : Hook) : Hook * list Effect :=
  (set_write write_pending s,
   [WriteContract address args_from args_to args_tokenId]).

(** [resetWrite()] *)
Definition resetWrite (s : Hook) : Hook * list Effect :=
  (set_write write_idle s, [ResetWrite]).

(** ** Derived views (lines 49-61) *)

Definition currentTokenId (s : Hook) : option Z :=
  queue_at (queue s) (currentIndex s).

Definition totalCount (s : Hook) : Z := len (queue s).

Definition allTransfersSubmitted (s : Hook) : bool :=
  (currentIndex s >=? totalCount s) && (totalCount s >? 0).

Definition allTransfersConfirmed (s : Hook) : bool :=
  (len (completedTransfers s) =? totalCount s)
  && (totalCount s >? 0)
  && forallb (fun t => bool_decide (status t = success)
                       || bool_decide (status t = failed))
             (completedTransfers s).

Definition isComplete (s : Hook) : bool := allTransfersConfirmed s.

Definition pendingConfirmations (s : Hook) : Z :=
  len (List.filter (fun t => bool_decide (status t = pending))
                   (completedTransfers s)).

Definition isConfirming (s : Hook) : bool := pendingConfirmations s >? 0.

(** ** Submission (lines 64-81) *)

(** The values the current render hands to [executeCurrentTransfer]. *)
Definition render (s : Hook) : Render :=
  {| r_transferParams := transferParams s;
     r_currentIndex := currentIndex s;
     r_queue := queue s |}.

(** [executeCurrentTransfer] as created by the render [r], run when the refs
    and the signer are as in [s]. *)
Definition executeCurrentTransfer_of (r : Render) (s : Hook)
    : Hook * list Effect :=
  match r_transferParams r with
  | None => (s, [])
  | Some tp =>
      if r_currentIndex r >=? len (r_queue r) then (s, [])
      else if lastExecutedIndexRef s =? r_currentIndex r then (s, [])
      else if isExecutingRef s then (s, [])
      else
        let s1 := set_lastExecutedIndexRef (r_currentIndex r) s in
        let s2 := set_isExecutingRef true s1 in
        let tokenId := queue_at (r_queue r) (r_currentIndex r) in
        writeContract (contractAddress tp) (from tp) (to tp) tokenId s2
  end.

(** [executeCurrentTransfer] of the current render. *)
Definition executeCurrentTransfer (s : Hook) : Hook * list Effect :=
  executeCurrentTransfer_of (render s) s.

(** ** [startTransfer] (lines 84-104) *)

Definition startTransfer (params : ERC721MultiTransferParams)
    (from_ : Address) (s : Hook) : Hook * list Effect :=
  if len (tokenIds params) =? 0 then (s, [])
  else
    let s1 := set_processedHashesRef ∅ s in
    let s2 := set_lastExecutedIndexRef (-1) s1 in
    let s3 := set_isExecutingRef false s2 in
    let s4 := setQueue (tokenIds params) s3 in
    let s5 := setCurrentIndex 0 s4 in
    let s6 := setIsTransferring true s5 in
    let s7 := setCompletedTransfers (fun _ => []) s6 in
    (setTransferParams
       (Some {| contractAddress := p_contractAddress params;
                to := p_to params;
                from := from_ |}) s7,
     []).

(** ** The effects *)

(** Auto-execute the first transfer (lines 107-111). *)
Definition autoExecuteFirst (s : Hook) : Hook * list Effect :=
  if defined (transferParams s) && isTransferring s
     && (currentIndex s =? 0) && (len (queue s) >? 0)
     && negb (defined (data (write s))) && negb (isPending (write s))
  then executeCurrentTransfer s
  else (s, []).

(** The hash-arrival effect (lines 114-163).  [publicClient] tells whether
    [usePublicClient()] returned a client. *)
Definition hashEffect (publicClient : bool) (s : Hook) : Hook * list Effect :=
  match data (write s) with
  | None => (s, [])
  | Some currentHash =>
      if negb (isTransferring s) || (currentIndex s >=? len (queue s))
      then (s, [])
      else if decide (currentHash ∈ processedHashesRef s) then (s, [])
      else
        let s1 :=
          set_processedHashesRef ({[currentHash]} ∪ processedHashesRef s) s in
        let s2 := set_isExecutingRef false s1 in
        let tokenId := queue_at (queue s) (currentIndex s) in
        let s3 :=
          setCompletedTransfers
            (fun prev => prev ++ [mkTransferResult tokenId currentHash pending])
            s2 in
        let hashToWatch := currentHash in
        let watch :=
          if publicClient then [WaitForTransactionReceipt hashToWatch]
          else [] in
        let nextIndex := currentIndex s + 1 in
        let s4 := setCurrentIndex nextIndex s3 in
        if nextIndex <? len (queue s) then
          let '(s5, e) := resetWrite s4 in (s5, watch ++ e)
        else (s4, watch)
  end.

(** The callbacks of [waitForTransactionReceipt] (lines 137-152): the [map]
    over the records, keyed by the watched hash. *)
Definition markStatus (hashToWatch : Hash) (st : Status)
    (prev : list TransferResult) : list TransferResult :=
  map (fun t => if decide (hash t = hashToWatch)
                then mkTransferResult (tokenId t) (hash t) st
                else t)
      prev.

(** [.then(() => ...)] *)
Definition receiptThen (hashToWatch : Hash) (s : Hook) : Hook * list Effect :=
  (setCompletedTransfers (markStatus hashToWatch success) s, []).

(** [.catch(() => ...)] *)
Definition receiptCatch (hashToWatch : Hash) (s : Hook) : Hook * list Effect :=
  (setCompletedTransfers (markStatus hashToWatch failed) s, []).

(** Execute the next transfer after the index moved (lines 166-177): the
    50 ms timer that calls [executeCurrentTransfer] of this render. *)
Definition autoExecuteNext (s : Hook) : Hook * list Effect :=
  if negb (isTransferring s) || (currentIndex s =? 0)
     || (currentIndex s >=? len (queue s))
  then (s, [])
  else if defined (data (write s)) || isPending (write s) then (s, [])
  else if lastExecutedIndexRef s =? currentIndex s then (s, [])
  else (s, [SetTimeout 50 (render s)]).

(** "Check if we're done" (lines 180-184). *)
Definition checkDone (s : Hook) : Hook * list Effect :=
  if allTransfersConfirmed s && isTransferring s
  then (setIsTransferring false s, [])
  else (s, []).

(** ** [skip], [retry], [reset] (lines 187-232) *)

Definition skip (s : Hook) : Hook * list Effect :=
  if negb (isTransferring s) || negb (defined (error (write s))) then (s, [])
  else
    let tokenId := queue_at (queue s) (currentIndex s) in
    let s1 :=
      setCompletedTransfers
        (fun prev => prev ++ [mkTransferResult tokenId hash_0x failed]) s in
    let s2 := set_isExecutingRef false s1 in
    let nextIndex := currentIndex s + 1 in
    let s3 := set_lastExecutedIndexRef (-1) s2 in
    if nextIndex <? len (queue s) then
      resetWrite (setCurrentIndex nextIndex s3)
    else
      (setCurrentIndex nextIndex s3, []).

Definition retry (s : Hook) : Hook * list Effect :=
  if negb (isTransferring s) || negb (defined (error (write s))) then (s, [])
  else
    let '(s1, e) := resetWrite s in
    let s2 := set_isExecutingRef false s1 in
    let s3 := set_lastExecutedIndexRef (-1) s2 in
    (s3, e ++ [SetTimeout 100 (render s)]).

Definition reset (s : Hook) : Hook * list Effect :=
  let s1 := setQueue [] s in
  let s2 := setCurrentIndex 0 s1 in
  let s3 := setIsTransferring false s2 in
  let s4 := setCompletedTransfers (fun _ => []) s3 in
  let s5 := setTransferParams None s4 in
  let s6 := set_processedHashesRef ∅ s5 in
  let s7 := set_lastExecutedIndexRef (-1) s6 in
  let s8 := set_isExecutingRef false s7 in
  resetWrite s8.

(** ** Runs of the hook among its collaborators

    A [World] is the hook together with what its calls left outside it: the
    log of all calls, the timers not yet fired and the receipt watches not
    yet settled.  Effects are events of their own, so a run may execute them
    at any moment, in particular when React would; the cleanup of the 50 ms
    timer ([clearTimeout]) is not modelled.  In the runs of [step] below
    every callback and effect is called from the latest render, timers
    apart; the runs of [react_step], further down, add the calls made from
    an earlier render. *)

Record World := mkWorld {
  hook : Hook;
  calls : list Effect;
  timers : list Render;
  watchers : list Hash
}.

Definition timers_of (es : list Effect) : list Render :=
  flat_map (fun e => match e with SetTimeout _ c => [c] | _ => [] end) es.

Definition watchers_of (es : list Effect) : list Hash :=
  flat_map (fun e => match e with
                     | WaitForTransactionReceipt h => [h]
                     | _ => []
                     end) es.

(** Commit the result of a callback or effect. *)
Definition commit (w : World) (r : Hook * list Effect) : World :=
  {| hook := fst r;
     calls := calls w ++ snd r;
     timers := timers w ++ timers_of (snd r);
     watchers := watchers w ++ watchers_of (snd r) |}.

(** Remove the [n]-th element of a list. *)
Definition remove_nth {A} (n : nat) (l : list A) : list A :=
  firstn n l ++ skipn (S n) l.

(** What can happen during one batch run. *)
Inductive SessionEvent :=
| RunAutoExecuteFirst
| RunHashEffect
| RunAutoExecuteNext
| RunCheckDone
| TimerFires (n : nat)
| SignerResolves (h : Hash)
| SignerRejects (e : WriteError)
| ReceiptResolves (n : nat)
| ReceiptRejects (n : nat)
| CallSkip
| CallRetry.

(** What can happen to a mounted hook. *)
Inductive Event :=
| CallStartTransfer (params : ERC721MultiTransferParams) (from_ : Address)
| CallReset
| InSession (e : SessionEvent).

(** The signer settles the request it is awaiting. *)
Definition signerSettles (w : WriteState) (s : Hook) : Hook * list Effect :=
  if isPending (write s) then (set_write w s, []) else (s, []).

Section Runs.

(** Whether [usePublicClient()] yields a client. *)
Variable publicClient : bool.

(** One event of a batch run.  The effects, [skip] and [retry] are those of
    the latest render: React has rendered since the last change of state.
    A timer runs the closure it was given. *)
Definition session_step (e : SessionEvent) (w : World) : World :=
  match e with
  | RunAutoExecuteFirst => commit w (autoExecuteFirst (hook w))
  | RunHashEffect => commit w (hashEffect publicClient (hook w))
  | RunAutoExecuteNext => commit w (autoExecuteNext (hook w))
  | RunCheckDone => commit w (checkDone (hook w))
  | TimerFires n =>
      match nth_error (timers w) n with
      | Some r =>
          let w' := commit w (executeCurrentTransfer_of r (hook w)) in
          mkWorld (hook w') (calls w') (remove_nth n (timers w'))
                  (watchers w')
      | None => w
      end
  | SignerResolves h =>
      commit w (signerSettles (mkWrite (Some h) false None) (hook w))
  | SignerRejects err =>
      commit w (signerSettles (mkWrite None false (Some err)) (hook w))
  | ReceiptResolves n =>
      match nth_error (watchers w) n with
      | Some h =>
          let w' := commit w (receiptThen h (hook w)) in
          mkWorld (hook w') (calls w') (timers w')
                  (remove_nth n (watchers w'))
      | None => w
      end
  | ReceiptRejects n =>
      match nth_error (watchers w) n with
      | Some h =>
          let w' := commit w (receiptCatch h (hook w)) in
          mkWorld (hook w') (calls w') (timers w')
                  (remove_nth n (watchers w'))
      | None => w
      end
  | CallSkip => commit w (skip (hook w))
  | CallRetry => commit w (retry (hook w))
  end.

Definition step (e : Event) (w : World) : World :=
  match e with
  | CallStartTransfer params from_ =>
      commit w (startTransfer params from_ (hook w))
  | CallReset => commit w (reset (hook w))
  | InSession e => session_step e w
  end.

Definition session_run (es : list SessionEvent) (w : World) : World :=
  fold_left (fun w e => session_step e w) es w.

Definition run (es : list Event) (w : World) : World :=
  fold_left (fun w e => step e w) es w.

End Runs.

(** A hook that has just been mounted. *)
Definition mounted : World :=
  {| hook := initial; calls := []; timers := []; watchers := [] |}.

(** How often [waitForTransactionReceipt({hash: h})] occurs among calls. *)
Definition watch_count (h : Hash) (es : list Effect) : nat :=
  count_occ Effect_eq_dec es (WaitForTransactionReceipt h).

Arguments watch_count : simpl never.

(** How many receipt watches for [h] have been started so far. *)
Definition watches_started (h : Hash) (w : World) : nat :=
  watch_count h (calls w).

(** ** The derived views as the specification words them *)

Definition spec_allSubmitted (currentIndex totalCount : Z) : bool :=
  (currentIndex >=? totalCount) && (totalCount >? 0).

Definition spec_allConfirmed (records : list TransferResult)
    (totalCount : Z) : bool :=
  (len records =? totalCount) && (totalCount >? 0)
  && forallb (fun r => negb (bool_decide (status r = pending))) records.

(** [count(records where status == pending)] *)
Fixpoint spec_pendingCount (records : list TransferResult) : Z :=
  match records with
  | [] => 0
  | r :: rest =>
      (match status r with pending => 1 | _ => 0 end) + spec_pendingCount rest
  end.

(** [n] re-entrant invocations of [executeCurrentTransfer] in a row, with all
    the calls they make. *)
Fixpoint executeCurrentTransfer_times (n : nat) (s : Hook)
    : Hook * list Effect :=
  match n with
  | O => (s, [])
  | S n' =>
      let '(s1, e1) := executeCurrentTransfer s in
      let '(s2, e2) := executeCurrentTransfer_times n' s1 in
      (s2, e1 ++ e2)
  end.

(** ** Sample data used by the examples *)

Definition contract_c : Address := mkAddress "c0ffee".
Definition alice : Address := mkAddress "a11ce".
Definition bob : Address := mkAddress "b0b".
Definition h1 : Hash := mkHash "aa01".
Definition h2 : Hash := mkHash "bb02".
Definition h3 : Hash := mkHash "cc03".

Definition session_ab : TransferParams :=
  {| contractAddress := contract_c; to := bob; from := alice |}.

(** The request to transfer tokens 1 and 2 to [bob]. *)
Definition params_12 : ERC721MultiTransferParams :=
  mkParams contract_c bob [1; 2].

(** A batch of one token, submitted and confirmed. *)
Definition batch_done : Hook :=
  {| queue := [7];
     currentIndex := 1;
     isTransferring := false;
     completedTransfers := [mkTransferResult (Some 7) h1 success];
     transferParams := Some session_ab;
     processedHashesRef := {[h1]};
     lastExecutedIndexRef := 0;
     isExecutingRef := false;
     write := mkWrite (Some h1) false None |}.

(** A batch of one token whose receipt watch has reported failure. *)
Definition batch_failed : Hook :=
  {| queue := [7];
     currentIndex := 1;
     isTransferring := false;
     completedTransfers := [mkTransferResult (Some 7) h1 failed];
     transferParams := Some session_ab;
     processedHashesRef := {[h1]};
     lastExecutedIndexRef := 0;
     isExecutingRef := false;
     write := mkWrite (Some h1) false None |}.

(** A batch of three tokens at position 1: token 1 submitted under [h1] and
    still pending, the request for token 2 awaiting the signer. *)
Definition batch_awaiting : Hook :=
  {| queue := [1; 2; 3];
     currentIndex := 1;
     isTransferring := true;
     completedTransfers := [mkTransferResult (Some 1) h1 pending];
     transferParams := Some session_ab;
     processedHashesRef := {[h1]};
     lastExecutedIndexRef := 1;
     isExecutingRef := true;
     write := write_pending |}.

(** The same batch once the signer has answered with [h2]. *)
Definition batch_hash_arrived : Hook :=
  set_write (mkWrite (Some h2) false None) batch_awaiting.

(** The same batch when the effect runs again while the signer still shows
    the handle [h1] it has already processed. *)
Definition batch_stale_hash : Hook :=
  set_write (mkWrite (Some h1) false None) batch_awaiting.

(** The same batch once the signer has refused token 2. *)
Definition batch_rejected : Hook :=
  set_write (mkWrite None false (Some "User rejected the request."))
            batch_awaiting.

(** Tokens 1 and 2: token 1 is submitted under [h1], the signer refuses
    token 2, and the user skips twice while [h1] is still unconfirmed.  The
    effects are run after each change, in the order of the source. *)
Definition skip_twice_trace : list Event :=
  [CallStartTransfer params_12 alice;
   InSession RunAutoExecuteFirst;
   InSession (SignerResolves h1);
   InSession RunHashEffect;
   InSession RunAutoExecuteNext;
   InSession (TimerFires 0);
   InSession (SignerRejects "User rejected the request.");
   InSession CallSkip;
   InSession RunAutoExecuteFirst;
   InSession RunHashEffect;
   InSession RunAutoExecuteNext;
   InSession RunCheckDone;
   InSession CallSkip].

(** The scenario of the specification: tokens 1, 2, 3; 1 is submitted under
    [h1]; the signer refuses 2 and the user skips it; 3 is submitted under
    [h3]; then both receipts arrive. *)
Definition scenario_trace : list Event :=
  [CallStartTransfer (mkParams contract_c bob [1; 2; 3]) alice;
   InSession RunAutoExecuteFirst;
   InSession (SignerResolves h1);
   InSession RunHashEffect;
   InSession RunAutoExecuteNext;
   InSession (TimerFires 0);
   InSession (SignerRejects "User rejected the request.");
   InSession CallSkip;
   InSession RunAutoExecuteNext;
   InSession (TimerFires 0);
   InSession (SignerResolves h3);
   InSession RunHashEffect;
   InSession (ReceiptResolves 0);
   InSession (ReceiptResolves 0);
   InSession RunCheckDone].

(** The records follow the cursor: there are [currentIndex] of them, and the
    one at position [n] carries [queue[n]]. *)
Definition records_follow_cursor (s : Hook) : Prop :=
  0 <= currentIndex s
  /\ len (completedTransfers s) = currentIndex s
  /\ (forall n r,
        nth_error (completedTransfers s) n = Some r ->
        tokenId r = nth_error (queue s) n).

(** ** The rest of the hook's result (lines 234-262) *)

(** [failedTokenId: writeError ? currentTokenId : undefined] *)
Definition failedTokenId (s : Hook) : option Z :=
  if defined (error (write s)) then currentTokenId s else None.

(** ** Batch runs driven by the effects *)

(** The [writeContract] calls among [es], in order. *)
Definition writes_of (es : list Effect) : list Effect :=
  flat_map (fun e => match e with
                     | WriteContract _ _ _ _ => [e]
                     | _ => []
                     end) es.

(** The call that asks the signer for [safeTransferFrom(from, to, t)] on the
    session's contract. *)
Definition transfer_call (tp : TransferParams) (t : Z) : Effect :=
  WriteContract (contractAddress tp) (from tp) (to tp) (Some t).

(** The events by which the hook sends the token at position [k] to the
    signer: the auto-execute effect, for [k > 0] followed by the 50 ms timer
    it sets. *)
Definition dispatch (k : nat) : list SessionEvent :=
  match k with
  | O => [RunAutoExecuteFirst]
  | S _ => [RunAutoExecuteNext; TimerFires 0]
  end.

(** How the request for one position ends: the signer returns a handle; or
    it refuses and the user skips; or it refuses, the user retries, and the
    new request ends in one of these ways again. *)
Inductive Outcome :=
| Signed (h : Hash)
| Skipped (e : WriteError)
| Retried (e : WriteError) (o : Outcome).

(** The events after the request is sent: the signer's answer and the
    hash-arrival effect, or the refusal and [skip], or the refusal, [retry]
    and its 100 ms timer, and then the events of the new request. *)
Fixpoint answer (o : Outcome) : list SessionEvent :=
  match o with
  | Signed h => [SignerResolves h; RunHashEffect]
  | Skipped e => [SignerRejects e; CallSkip]
  | Retried e o' => [SignerRejects e; CallRetry; TimerFires 0] ++ answer o'
  end.

(** Positions [k], [k+1], ... are sent to the signer in turn and end as
    [os] says. *)
Fixpoint batch_events (k : nat) (os : list Outcome) : list SessionEvent :=
  match os with
  | [] => []
  | o :: os' => dispatch k ++ answer o ++ batch_events (S k) os'
  end.

(** The record the hook keeps for token [t] when its request ends as [o]. *)
Fixpoint record_of (t : Z) (o : Outcome) : TransferResult :=
  match o with
  | Signed h => mkTransferResult (Some t) h pending
  | Skipped _ => mkTransferResult (Some t) hash_0x failed
  | Retried _ o' => record_of t o'
  end.

(** The handle the signer returned in the end, if any. *)
Fixpoint handle_of (o : Outcome) : list Hash :=
  match o with
  | Signed h => [h]
  | Skipped _ => []
  | Retried _ o' => handle_of o'
  end.

(** How often the signer was asked. *)
Fixpoint attempts (o : Outcome) : nat :=
  match o with
  | Signed _ | Skipped _ => 1
  | Retried _ o' => S (attempts o')
  end.

(** A batch over the queue [q] that is about to submit position [k]: nothing
    in flight, no timer set, the signer idle while work remains. *)
Definition ready (q : list Z) (tp : TransferParams) (k : nat) (w : World)
    : Prop :=
  queue (hook w) = q
  /\ currentIndex (hook w) = Z.of_nat k
  /\ isTransferring (hook w) = true
  /\ transferParams (hook w) = Some tp
  /\ lastExecutedIndexRef (hook w) < Z.of_nat k
  /\ isExecutingRef (hook w) = false
  /\ ((k < length q)%nat -> write (hook w) = write_idle)
  /\ timers w = [].

(** One receipt callback: the handle and whether the receipt promise
    resolved ([then]) or rejected ([catch]). *)
Definition receipt (c : Hash * bool) (s : Hook) : Hook :=
  fst ((if snd c then receiptThen else receiptCatch) (fst c) s).

(** Receipt callbacks applied in the order given. *)
Definition receipts (cs : list (Hash * bool)) (s : Hook) : Hook :=
  fold_left (fun s c => receipt c s) cs s.

(** What one receipt callback does to one record. *)
Definition mark (c : Hash * bool) (t : TransferResult) : TransferResult :=
  if decide (hash t = fst c)
  then mkTransferResult (tokenId t) (hash t)
                        (if snd c then success else failed)
  else t.

(** What the callbacks [cs], in this order, do to one record. *)
Definition marks (cs : list (Hash * bool)) (t : TransferResult)
    : TransferResult :=
  fold_left (fun t c => mark c t) cs t.

(** The signer awaits a signature only for a request the hook has in
    flight, and then shows neither a handle nor an error. *)
Definition signer_consistent (s : Hook) : Prop :=
  isPending (write s) = true ->
  data (write s) = None /\ error (write s) = None
  /\ isExecutingRef s = true.

(** A callback or effect keeps the signer consistent with the in-flight
    flag, and asks the signer at most once, only when nothing is in flight
    and the signer is not awaiting a signature. *)
Definition asks_when_free (s : Hook) (r : Hook * list Effect) : Prop :=
  signer_consistent s ->
  signer_consistent (fst r)
  /\ (writes_of (snd r) = []
      \/ exists c,
           writes_of (snd r) = [c]
           /\ isPending (write s) = false
           /\ isExecutingRef s = false
           /\ isPending (write (fst r)) = true
           /\ isExecutingRef (fst r) = true).

(** ** [shortenAddress] (the address utilities)

    JavaScript strings are modelled as [string]; an address is ASCII, so the
    length in UTF-16 code units is [String.length].  [chars] is an integer. *)

(** The index arithmetic of [String.prototype.slice]: a negative index
    counts from the end, and the result is clamped to [0 .. len]. *)
Definition relative_index (len i : Z) : Z :=
  if i <? 0 then Z.max (len + i) 0 else Z.min i len.

(** [s.slice(start, end)], [end_ = None] for an omitted [end]. *)
Definition slice (s : string) (start : Z) (end_ : option Z) : string :=
  let len := Z.of_nat (String.length s) in
  let from_ := relative_index len start in
  let final := match end_ with
               | Some e => relative_index len e
               | None => len
               end in
  substring (Z.to_nat from_) (Z.to_nat (final - from_)) s.

(** [shortenAddress(address, chars)] *)
Definition shortenAddress (address : string) (chars : Z) : string :=
  if String.eqb address "" then ""%string
  else (slice address 0 (Some (chars + 2)) ++ "..."
        ++ slice address (- chars) None)%string.

(** [shortenAddress(address)], with the default [chars = 4]. *)
Definition shortenAddress_default (address : string) : string :=
  shortenAddress address 4.

(** A record beyond the end of the queue can only come from [skip]: it
    carries the handle ["0x"]. *)
Definition beyond_queue_only_skipped (s : Hook) : Prop :=
  forall n r,
    nth_error (completedTransfers s) n = Some r ->
    (length (queue s) <= n)%nat ->
    hash r = hash_0x.

(** ** Callbacks and effects of an earlier render

    A callback or an effect reads the React state and the signer through the
    closure of the render that created it; only the refs and the functional
    update of [completedTransfers] see the latest state.  [skip s],
    [retry s], [hashEffect s] and the others above are the calls made from
    the render of [s] itself.  Below, the same bodies are split into what
    the render handed over (a [View]) and the state they act on, so that a
    call made from an earlier render (two calls of [skip] in one handler, an
    effect that runs again) is a run of the model too. *)

(** What a render hands to the closures it creates. *)
Record View := mkView {
  v_queue : list Z;
  v_currentIndex : Z;
  v_isTransferring : bool;
  v_completedTransfers : list TransferResult;
  v_transferParams : option TransferParams;
  v_write : WriteState
}.

(** The render of the state [s]. *)
Definition view (s : Hook) : View :=
  {| v_queue := queue s;
     v_currentIndex := currentIndex s;
     v_isTransferring := isTransferring s;
     v_completedTransfers := completedTransfers s;
     v_transferParams := transferParams s;
     v_write := write s |}.

(** What [executeCurrentTransfer] of that render closes over. *)
Definition render_of (v : View) : Render :=
  {| r_transferParams := v_transferParams v;
     r_currentIndex := v_currentIndex v;
     r_queue := v_queue v |}.

(** [allTransfersConfirmed] as computed by the render. *)
Definition allTransfersConfirmed_of (v : View) : bool :=
  (len (v_completedTransfers v) =? len (v_queue v))
  && (len (v_queue v) >? 0)
  && forallb (fun t => bool_decide (status t = success)
                       || bool_decide (status t = failed))
             (v_completedTransfers v).

(** The auto-execute effect (lines 107-111) of the render [v]. *)
Definition autoExecuteFirst_of (v : View) (s : Hook) : Hook * list Effect :=
  if defined (v_transferParams v) && v_isTransferring v
     && (v_currentIndex v =? 0) && (len (v_queue v) >? 0)
     && negb (defined (data (v_write v))) && negb (isPending (v_write v))
  then executeCurrentTransfer_of (render_of v) s
  else (s, []).

(** The hash-arrival effect (lines 114-163) of the render [v]: the handle,
    [isTransferring], the index and the queue are the render's, the set of
    processed handles is the ref. *)
Definition hashEffect_of (publicClient : bool) (v : View) (s : Hook)
    : Hook * list Effect :=
  match data (v_write v) with
  | None => (s, [])
  | Some currentHash =>
      if negb (v_isTransferring v)
         || (v_currentIndex v >=? len (v_queue v))
      then (s, [])
      else if decide (currentHash ∈ processedHashesRef s) then (s, [])
      else
        let s1 :=
          set_processedHashesRef ({[currentHash]} ∪ processedHashesRef s) s in
        let s2 := set_isExecutingRef false s1 in
        let tokenId := queue_at (v_queue v) (v_currentIndex v) in
        let s3 :=
          setCompletedTransfers
            (fun prev => prev ++ [mkTransferResult tokenId currentHash pending])
            s2 in
        let hashToWatch := currentHash in
        let watch :=
          if publicClient then [WaitForTransactionReceipt hashToWatch]
          else [] in
        let nextIndex := v_currentIndex v + 1 in
        let s4 := setCurrentIndex nextIndex s3 in
        if nextIndex <? len (v_queue v) then
          let '(s5, e) := resetWrite s4 in (s5, watch ++ e)
        else (s4, watch)
  end.

(** The execute-next effect (lines 166-177) of the render [v]. *)
Definition autoExecuteNext_of (v : View) (s : Hook) : Hook * list Effect :=
  if negb (v_isTransferring v) || (v_currentIndex v =? 0)
     || (v_currentIndex v >=? len (v_queue v))
  then (s, [])
  else if defined (data (v_write v)) || isPending (v_write v) then (s, [])
  else if lastExecutedIndexRef s =? v_currentIndex v then (s, [])
  else (s, [SetTimeout 50 (render_of v)]).

(** The completion effect (lines 180-184) of the render [v]. *)
Definition checkDone_of (v : View) (s : Hook) : Hook * list Effect :=
  if allTransfersConfirmed_of v && v_isTransferring v
  then (setIsTransferring false s, [])
  else (s, []).

(** [skip] (lines 187-206) as created by the render [v]. *)
Definition skip_of (v : View) (s : Hook) : Hook * list Effect :=
  if negb (v_isTransferring v) || negb (defined (error (v_write v)))
  then (s, [])
  else
    let tokenId := queue_at (v_queue v) (v_currentIndex v) in
    let s1 :=
      setCompletedTransfers
        (fun prev => prev ++ [mkTransferResult tokenId hash_0x failed]) s in
    let s2 := set_isExecutingRef false s1 in
    let nextIndex := v_currentIndex v + 1 in
    let s3 := set_lastExecutedIndexRef (-1) s2 in
    if nextIndex <? len (v_queue v) then
      resetWrite (setCurrentIndex nextIndex s3)
    else
      (setCurrentIndex nextIndex s3, []).

(** [retry] (lines 209-219) as created by the render [v]. *)
Definition retry_of (v : View) (s : Hook) : Hook * list Effect :=
  if negb (v_isTransferring v) || negb (defined (error (v_write v)))
  then (s, [])
  else
    let '(s1, e) := resetWrite s in
    let s2 := set_isExecutingRef false s1 in
    let s3 := set_lastExecutedIndexRef (-1) s2 in
    (s3, e ++ [SetTimeout 100 (render_of v)]).

(** A call made through the closure of some render. *)
Inductive FromRender :=
| AutoExecuteFirstFrom (v : View)
| HashEffectFrom (v : View)
| AutoExecuteNextFrom (v : View)
| CheckDoneFrom (v : View)
| SkipFrom (v : View)
| RetryFrom (v : View).

(** The render a call comes from. *)
Definition render_from (c : FromRender) : View :=
  match c with
  | AutoExecuteFirstFrom v | HashEffectFrom v | AutoExecuteNextFrom v
  | CheckDoneFrom v | SkipFrom v | RetryFrom v => v
  end.

(** The same call made from the latest render. *)
Definition from_latest (c : FromRender) : SessionEvent :=
  match c with
  | AutoExecuteFirstFrom _ => RunAutoExecuteFirst
  | HashEffectFrom _ => RunHashEffect
  | AutoExecuteNextFrom _ => RunAutoExecuteNext
  | CheckDoneFrom _ => RunCheckDone
  | SkipFrom _ => CallSkip
  | RetryFrom _ => CallRetry
  end.

(** What can happen during one batch run, calls from earlier renders
    included. *)
Inductive BatchEvent :=
| Now (e : SessionEvent)
| Of (c : FromRender).

(** What can happen to a mounted hook, calls from earlier renders included.
    [startTransfer] and [reset] read nothing from their render. *)
Inductive ReactEvent :=
| InBatch (e : BatchEvent)
| StartTransferNow (params : ERC721MultiTransferParams) (from_ : Address)
| ResetNow.

Definition from_render_step (publicClient : bool) (c : FromRender)
    (w : World) : World :=
  match c with
  | AutoExecuteFirstFrom v => commit w (autoExecuteFirst_of v (hook w))
  | HashEffectFrom v => commit w (hashEffect_of publicClient v (hook w))
  | AutoExecuteNextFrom v => commit w (autoExecuteNext_of v (hook w))
  | CheckDoneFrom v => commit w (checkDone_of v (hook w))
  | SkipFrom v => commit w (skip_of v (hook w))
  | RetryFrom v => commit w (retry_of v (hook w))
  end.

Definition batch_step (publicClient : bool) (e : BatchEvent) (w : World)
    : World :=
  match e with
  | Now e => session_step publicClient e w
  | Of c => from_render_step publicClient c w
  end.

Definition react_step (publicClient : bool) (e : ReactEvent) (w : World)
    : World :=
  match e with
  | InBatch e => batch_step publicClient e w
  | StartTransferNow params from_ =>
      step publicClient (CallStartTransfer params from_) w
  | ResetNow => step publicClient CallReset w
  end.

Definition batch_steps (publicClient : bool) (es : list BatchEvent)
    (w : World) : World :=
  fold_left (fun w e => batch_step publicClient e w) es w.

Definition react_run (publicClient : bool) (es : list ReactEvent)
    (w : World) : World :=
  fold_left (fun w e => react_step publicClient e w) es w.

(** The event as a run of [step] has it, every call taken to come from the
    latest render. *)
Definition latest (e : ReactEvent) : Event :=
  match e with
  | InBatch (Now e) => InSession e
  | InBatch (Of c) => InSession (from_latest c)
  | StartTransferNow params from_ => CallStartTransfer params from_
  | ResetNow => CallReset
  end.

(** The event is a call from the render of the current state. *)
Definition from_current_render (e : ReactEvent) (w : World) : Prop :=
  match e with
  | InBatch (Of c) => render_from c = view (hook w)
  | _ => True
  end.

(** Every call of the run comes from the render of the state it finds:
    React has rendered between any two calls. *)
Fixpoint rendered_between_calls (publicClient : bool)
    (es : list ReactEvent) (w : World) : Prop :=
  match es with
  | [] => True
  | e :: es' =>
      from_current_render e w
      /\ rendered_between_calls publicClient es' (react_step publicClient e w)
  end.

(** The step from [before] to [after] appended a pending record for the
    handle [h]. *)
Definition appended_pending (h : Hash)
    (before after : list TransferResult) : bool :=
  match nth_error after (length before) with
  | Some r =>
      (length after =? S (length before))%nat
      && bool_decide (hash r = h) && bool_decide (status r = pending)
  | None => false
  end.

(** How many events of a batch run append a pending record for [h]. *)
Fixpoint pending_appends (publicClient : bool) (h : Hash)
    (es : list BatchEvent) (w : World) : nat :=
  match es with
  | [] => 0
  | e :: es' =>
      let w' := batch_step publicClient e w in
      ((if appended_pending h (completedTransfers (hook w))
                              (completedTransfers (hook w'))
        then 1 else 0)
       + pending_appends publicClient h es' w')%nat
  end.

(** How many records are pending under the handle [h]. *)
Definition pending_records (h : Hash) (s : Hook) : nat :=
  length (List.filter (fun r => bool_decide (hash r = h)
                                && bool_decide (status r = pending))
                      (completedTransfers s)).

(** What one callback or effect may do about the handle [h]: the processed
    set only grows, and a watch or a pending record for [h] is added at most
    once, and only while moving [h] into the processed set. *)
Definition books_once (h : Hash) (s : Hook) (r : Hook * list Effect)
    : Prop :=
  processedHashesRef s ⊆ processedHashesRef (fst r)
  /\ (watch_count h (snd r) = 0%nat
      \/ (watch_count h (snd r) = 1%nat
          /\ (h ∉ processedHashesRef s)
          /\ (h ∈ processedHashesRef (fst r))))
  /\ (appended_pending h (completedTransfers s)
                         (completedTransfers (fst r)) = true ->
      (h ∉ processedHashesRef s) /\ (h ∈ processedHashesRef (fst r))).

(** ** More sample runs *)

(** A batch whose last token was skipped while token 1 is unconfirmed: the
    signer still shows the error, the cursor is at the end of the queue. *)
Definition last_token_skipped : Hook :=
  hook (run true (removelast skip_twice_trace) mounted).

(** The same signer handle in two batches: token 7 is submitted under [h1];
    [startTransfer] is called again, for token 8, without [reset]; the
    effects run. *)
Definition two_batches_trace : list Event :=
  [CallStartTransfer (mkParams contract_c bob [7]) alice;
   InSession RunAutoExecuteFirst;
   InSession (SignerResolves h1);
   InSession RunHashEffect;
   CallStartTransfer (mkParams contract_c bob [8]) alice;
   InSession RunAutoExecuteFirst;
   InSession RunHashEffect].

(** The signer refuses token 1; the user retries and at once resets; the
    100 ms timer of [retry] has not fired yet. *)
Definition retry_then_reset_trace : list Event :=
  [CallStartTransfer params_12 alice;
   InSession RunAutoExecuteFirst;
   InSession (SignerRejects "User rejected the request.");
   InSession CallRetry;
   CallReset].

(** Tokens 1, 2, 3: token 1 is submitted under [h1], the signer refuses
    token 2. *)
Definition second_token_refused : list ReactEvent :=
  map (fun e => InBatch (Now e))
      [RunAutoExecuteFirst; SignerResolves h1; RunHashEffect;
       RunAutoExecuteNext; TimerFires 0;
       SignerRejects "User rejected the request."].

(** ... and one handler calls [skip] twice before React renders again; then
    the receipt of [h1] arrives and the completion effect runs. *)
Definition skip_twice_in_one_render : list ReactEvent :=
  let start := StartTransferNow (mkParams contract_c bob [1; 2; 3]) alice in
  let v :=
    view (hook (react_run true (start :: second_token_refused) mounted)) in
  start :: second_token_refused
  ++ [InBatch (Of (SkipFrom v)); InBatch (Of (SkipFrom v));
      InBatch (Now (ReceiptResolves 0)); InBatch (Now RunCheckDone)].

(** Tokens 1 and 2: the signer refuses token 1. *)
Definition first_token_refused : list ReactEvent :=
  [StartTransferNow params_12 alice;
   InBatch (Now RunAutoExecuteFirst);
   InBatch (Now (SignerRejects "User rejected the request."))].

(** ... and the user skips it, through the [skip] of the render that shows
    the error. *)
Definition skip_from_latest_render : list ReactEvent :=
  first_token_refused
  ++ [InBatch (Of (SkipFrom
        (view (hook (react_run true first_token_refused mounted)))))].

(** A batch of one token, submitted and confirmed, the effects run through
    the closures of the renders that scheduled them. *)
Definition one_token_confirmed : list ReactEvent :=
  let start := StartTransferNow (mkParams contract_c bob [7]) alice in
  let v0 := view (hook (react_run true [start] mounted)) in
  let es1 :=
    [start; InBatch (Of (AutoExecuteFirstFrom v0));
     InBatch (Now (SignerResolves h1))] in
  let v1 := view (hook (react_run true es1 mounted)) in
  let es2 :=
    es1 ++ [InBatch (Of (HashEffectFrom v1));
            InBatch (Now (ReceiptResolves 0))] in
  let v2 := view (hook (react_run true es2 mounted)) in
  es2 ++ [InBatch (Of (CheckDoneFrom v2))].

(** * Properties *)

(** Turn boolean comparisons in the hypotheses into propositions. *)
Ltac zbool :=
  repeat match goal with
  | H : (_ <? _) = true |- _ => apply Z.ltb_lt in H
  | H : (_ <? _) = false |- _ => apply Z.ltb_ge in H
  | H : (_ >=? _) = true |- _ => apply Z.geb_le in H
  | H : (_ >=? _) = false |- _ => rewrite Z.geb_leb in H; apply Z.leb_gt in H
  | H : (_ =? _) = true |- _ => apply Z.eqb_eq in H
  | H : (_ =? _) = false |- _ => apply Z.eqb_neq in H
  | H : (_ >? _) = true |- _ => rewrite Z.gtb_ltb in H; apply Z.ltb_lt in H
  | H : (_ >? _) = false |- _ => rewrite Z.gtb_ltb in H; apply Z.ltb_ge in H
  end.

Lemma len_app {A} (l1 l2 : list A) : len (l1 ++ l2) = len l1 + len l2.
Proof. unfold len. rewrite length_app. lia. Qed.

Lemma queue_at_in_range (q : list Z) (i : Z) :
  0 <= i < len q -> exists t, queue_at q i = Some t.
Proof.
  intros [Hlo Hhi]. unfold queue_at, len in *.
  destruct (i <? 0) eqn:E; zbool; [lia|].
  destruct (nth_error q (Z.to_nat i)) eqn:N; [eauto|].
  apply nth_error_None in N. lia.
Qed.

Lemma settled_iff_not_pending (st : Status) :
  bool_decide (st = success) || bool_decide (st = failed)
  = negb (bool_decide (st = pending)).
Proof. destruct st; reflexivity. Qed.

Lemma pending_filter_count (records : list TransferResult) :
  len (List.filter (fun t => bool_decide (status t = pending)) records)
  = spec_pendingCount records.
Proof.
  induction records as [|r rest IH]; [reflexivity|].
  cbn [List.filter spec_pendingCount].
  destruct (status r); case_bool_decide; try congruence;
    rewrite <- IH; unfold len; cbn [length]; lia.
Qed.

(** C8.  In every state the derived views equal the expressions the
    specification gives for them: [allSubmitted] is
    [currentIndex >= totalCount && totalCount > 0]; [allConfirmed] is
    [records.length == totalCount && totalCount > 0] and no record pending
    (the code tests "success or failed", the same thing on the three
    statuses); [isComplete] is [allConfirmed]; [pendingConfirmations] counts
    the pending records.  All of them are total functions of the state. *)
Theorem derived_views_match_spec (s : Hook) :
  totalCount s = len (queue s)
  /\ allTransfersSubmitted s = spec_allSubmitted (currentIndex s) (totalCount s)
  /\ allTransfersConfirmed s
     = spec_allConfirmed (completedTransfers s) (totalCount s)
  /\ isComplete s = allTransfersConfirmed s
  /\ pendingConfirmations s = spec_pendingCount (completedTransfers s)
  /\ (allTransfersConfirmed s = true <->
      len (completedTransfers s) = totalCount s /\ totalCount s > 0
      /\ Forall (fun r => status r <> pending) (completedTransfers s)).
Proof.
  assert (Hall : forall l,
    forallb (fun t => bool_decide (status t = success)
                      || bool_decide (status t = failed)) l
    = forallb (fun r => negb (bool_decide (status r = pending))) l).
  { induction l as [|r l IH]; [reflexivity|]; cbn.
    rewrite settled_iff_not_pending, IH. reflexivity. }
  repeat split; try reflexivity.
  - unfold allTransfersConfirmed, spec_allConfirmed. now rewrite Hall.
  - apply pending_filter_count.
  - unfold allTransfersConfirmed in H.
    apply andb_prop in H as [H _]. apply andb_prop in H as [H _].
    now zbool.
  - unfold allTransfersConfirmed in H.
    apply andb_prop in H as [H _]. apply andb_prop in H as [_ H].
    zbool. lia.
  - unfold allTransfersConfirmed in H.
    apply andb_prop in H as [_ H]. rewrite Hall in H.
    rewrite forallb_forall in H. apply List.Forall_forall. intros r Hr.
    specialize (H r Hr). apply negb_true_iff in H.
    intros E. rewrite bool_decide_eq_false in H. contradiction.
  - intros (Hlen & Hpos & Hall'). unfold allTransfersConfirmed.
    rewrite Hall. apply andb_true_intro; split;
      [apply andb_true_intro; split|].
    + now apply Z.eqb_eq.
    + rewrite Z.gtb_ltb. apply Z.ltb_lt. lia.
    + apply forallb_forall. intros r Hr.
      rewrite List.Forall_forall in Hall'. specialize (Hall' r Hr).
      apply negb_true_iff. now apply bool_decide_eq_false.
Qed.

(** C10.  [startTransfer] with an empty [tokenIds] list does nothing, in any
    state and for any session parameters: the state, refs included, is
    returned as it was and no collaborator is called.  A completed batch
    always has a non-empty queue, so none arises from an empty list. *)
Theorem startTransfer_empty_is_noop
    (params : ERC721MultiTransferParams) (from_ : Address) (s : Hook) :
  tokenIds params = [] ->
  startTransfer params from_ s = (s, [])
  /\ isTransferring (fst (startTransfer params from_ initial)) = false
  /\ isComplete (fst (startTransfer params from_ s)) = isComplete s
  /\ (isComplete s = true -> queue s <> []).
Proof.
  intros Hempty. unfold startTransfer. rewrite Hempty. cbn.
  repeat split.
  intros Hc Hq. unfold isComplete, allTransfersConfirmed, totalCount in Hc.
  rewrite Hq in Hc. cbn in Hc. rewrite andb_false_r in Hc. discriminate.
Qed.

Lemma startTransfer_empty_is_noop_witness :
  startTransfer (mkParams contract_c bob []) alice batch_done
  = (batch_done, [])
  /\ queue batch_done <> [].
Proof.
  pose proof (startTransfer_empty_is_noop
                (mkParams contract_c bob []) alice batch_done eq_refl)
    as (Hnoop & _ & _ & Hq).
  split; [exact Hnoop|]. apply Hq. reflexivity.
Defined.

(** What [startTransfer] installs for a non-empty list, whatever was there
    before. *)
Lemma startTransfer_installs
    (params : ERC721MultiTransferParams) (from_ : Address) (s : Hook) :
  tokenIds params <> [] ->
  startTransfer params from_ s
  = ({| queue := tokenIds params;
        currentIndex := 0;
        isTransferring := true;
        completedTransfers := [];
        transferParams :=
          Some {| contractAddress := p_contractAddress params;
                  to := p_to params;
                  from := from_ |};
        processedHashesRef := ∅;
        lastExecutedIndexRef := -1;
        isExecutingRef := false;
        write := write s |}, []).
Proof.
  intros Hne. unfold startTransfer.
  destruct (tokenIds params) as [|t ts] eqn:E; [congruence|].
  reflexivity.
Qed.

(** C9.  [reset], from any state, returns the freshly mounted state: queue
    empty, [currentIndex] 0, no records, no session parameters, an empty
    processed-handles set, guard token -1, nothing in flight, the signer
    reset.  Hence [startTransfer] after [reset] gives exactly what it gives on
    a fresh instance, and a non-empty batch then starts at index 0 with no
    record, no processed handle and no guard token left over. *)
Theorem reset_restores_initial (s : Hook) :
  reset s = (initial, [ResetWrite])
  /\ (forall params from_,
        startTransfer params from_ (fst (reset s))
        = startTransfer params from_ initial)
  /\ (forall params from_,
        tokenIds params <> [] ->
        let s' := fst (startTransfer params from_ (fst (reset s))) in
        queue s' = tokenIds params
        /\ currentIndex s' = 0
        /\ completedTransfers s' = []
        /\ processedHashesRef s' = ∅
        /\ lastExecutedIndexRef s' = -1
        /\ isExecutingRef s' = false
        /\ write s' = write_idle).
Proof.
  assert (Hreset : reset s = (initial, [ResetWrite])) by reflexivity.
  split; [exact Hreset|]. rewrite Hreset. cbn [fst].
  split; [reflexivity|].
  intros params from_ Hne.
  rewrite (startTransfer_installs params from_ initial Hne). cbn.
  repeat split.
Qed.

Lemma reset_restores_initial_witness :
  currentIndex
    (fst (startTransfer (mkParams contract_c bob [4; 5]) alice
                        (fst (reset batch_rejected)))) = 0
  /\ lastExecutedIndexRef
       (fst (startTransfer (mkParams contract_c bob [4; 5]) alice
                           (fst (reset batch_rejected)))) = -1.
Proof.
  pose proof (reset_restores_initial batch_rejected) as (_ & _ & H).
  specialize (H (mkParams contract_c bob [4; 5]) alice).
  destruct H as (_ & Hi & _ & _ & Hg & _); [discriminate|].
  split; [exact Hi | exact Hg].
Defined.






(** The hash-arrival effect on a handle it has not seen, step by step. *)
Lemma hashEffect_new_handle_eq (publicClient : bool) (s : Hook) (h : Hash) :
  isTransferring s = true ->
  currentIndex s < len (queue s) ->
  data (write s) = Some h ->
  h ∉ processedHashesRef s ->
  hashEffect publicClient s
  = let s4 :=
      setCurrentIndex (currentIndex s + 1)
        (setCompletedTransfers
           (fun prev =>
              prev ++ [mkTransferResult (queue_at (queue s) (currentIndex s))
                                        h pending])
           (set_isExecutingRef false
              (set_processedHashesRef ({[h]} ∪ processedHashesRef s) s))) in
    let watch :=
      if publicClient then [WaitForTransactionReceipt h] else [] in
    if currentIndex s + 1 <? len (queue s)
    then (set_write write_idle s4, watch ++ [ResetWrite])
    else (s4, watch).
Proof.
  intros Ht Hi Hd Hnew. unfold hashEffect. rewrite Hd, Ht.
  destruct (currentIndex s >=? len (queue s)) eqn:E; zbool; [lia|].
  cbn [negb orb].
  destruct (decide (h ∈ processedHashesRef s)); [contradiction|].
  cbv zeta. destruct (_ <? _); reflexivity.
Qed.

(** C1, as amended.  In an active session ([isTransferring], position inside
    the queue) a handle not yet in the processed set makes the hash-arrival
    effect append exactly one record [{queue[currentIndex], handle, pending}],
    clear the in-flight flag, remember the handle, and advance
    [currentIndex] by exactly 1 at once, the record still pending.  The
    receipt watch for the handle is started when [usePublicClient] provided a
    client, and only then. *)
Theorem hashEffect_new_handle (publicClient : bool) (s : Hook) (h : Hash) :
  isTransferring s = true ->
  currentIndex s < len (queue s) ->
  data (write s) = Some h ->
  h ∉ processedHashesRef s ->
  let s' := fst (hashEffect publicClient s) in
  completedTransfers s'
  = completedTransfers s
    ++ [mkTransferResult (queue_at (queue s) (currentIndex s)) h pending]
  /\ isExecutingRef s' = false
  /\ currentIndex s' = currentIndex s + 1
  /\ processedHashesRef s' = {[h]} ∪ processedHashesRef s
  /\ watchers_of (snd (hashEffect publicClient s))
     = (if publicClient then [h] else [])
  /\ timers_of (snd (hashEffect publicClient s)) = []
  /\ queue s' = queue s
  /\ isTransferring s' = true
  /\ transferParams s' = transferParams s
  /\ lastExecutedIndexRef s' = lastExecutedIndexRef s
  /\ (0 <= currentIndex s ->
      exists t, queue_at (queue s) (currentIndex s) = Some t).
Proof.
  intros Ht Hi Hd Hnew.
  rewrite (hashEffect_new_handle_eq publicClient s h Ht Hi Hd Hnew).
  cbv zeta.
  destruct (currentIndex s + 1 <? len (queue s)), publicClient;
    cbn; (repeat split; try assumption);
    intros; apply queue_at_in_range; lia.
Qed.

Lemma hashEffect_new_handle_witness :
  completedTransfers (fst (hashEffect true batch_hash_arrived))
  = [mkTransferResult (Some 1) h1 pending;
     mkTransferResult (Some 2) h2 pending]
  /\ currentIndex (fst (hashEffect true batch_hash_arrived)) = 2
  /\ watchers_of (snd (hashEffect true batch_hash_arrived)) = [h2].
Proof.
  assert (Hnew : h2 ∉ processedHashesRef batch_hash_arrived).
  { cbn. rewrite elem_of_singleton. discriminate. }
  destruct (hashEffect_new_handle true batch_hash_arrived h2
              eq_refl eq_refl eq_refl Hnew)
    as (Hrec & _ & Hidx & _ & Hwatch & _).
  split; [exact Hrec|]. split; [exact Hidx | exact Hwatch].
Defined.

(** C1 as stated fails: in an active session, with a new handle delivered,
    the effect starts no receipt watch when [usePublicClient] returned
    [undefined]; the record is appended and the index advanced all the
    same. *)
Lemma hashEffect_without_client_starts_no_watch :
  transferParams batch_hash_arrived <> None
  /\ isTransferring batch_hash_arrived = true
  /\ currentIndex batch_hash_arrived < len (queue batch_hash_arrived)
  /\ data (write batch_hash_arrived) = Some h2
  /\ (h2 ∉ processedHashesRef batch_hash_arrived)
  /\ currentIndex (fst (hashEffect false batch_hash_arrived)) = 2
  /\ (~ In (WaitForTransactionReceipt h2)
            (snd (hashEffect false batch_hash_arrived))).
Proof.
  split; [discriminate|]. split; [reflexivity|]. split; [reflexivity|].
  split; [reflexivity|].
  split; [cbn; rewrite elem_of_singleton; discriminate|].
  split; [vm_compute; reflexivity|].
  vm_compute. intros [H | []]. discriminate.
Qed.

(** ** Confirmation callbacks *)

Lemma markStatus_length h st prev : length (markStatus h st prev) = length prev.
Proof. unfold markStatus. apply length_map. Qed.

Lemma markStatus_lookup h st prev (n : nat) :
  nth_error (markStatus h st prev) n
  = option_map (fun t => if decide (hash t = h)
                         then mkTransferResult (tokenId t) (hash t) st
                         else t)
               (nth_error prev n).
Proof. unfold markStatus. apply nth_error_map. Qed.

(** C2, as amended.  A confirmation callback for a handle sets the status of
    every record carrying that handle to its own outcome, whatever the
    status was: nothing protects a terminal status, and of two callbacks for
    one handle the last applied wins.  A callback whose outcome the record
    already has, and any callback for another handle, leaves the record as
    it is; the number and order of the records, their token ids and their
    handles never change. *)
Theorem markStatus_last_applied_wins (h : Hash) (st : Status) (s : Hook) :
  let prev := completedTransfers s in
  length (markStatus h st prev) = length prev
  /\ (forall n r,
        nth_error prev n = Some r ->
        exists r',
          nth_error (markStatus h st prev) n = Some r'
          /\ tokenId r' = tokenId r
          /\ hash r' = hash r
          /\ (hash r = h -> status r' = st)
          /\ (hash r = h -> status r = st -> r' = r)
          /\ (hash r <> h -> r' = r))
  /\ (forall st0,
        markStatus h st (markStatus h st0 prev) = markStatus h st prev)
  /\ completedTransfers (fst (receiptThen h s)) = markStatus h success prev
  /\ completedTransfers (fst (receiptCatch h s)) = markStatus h failed prev
  /\ completedTransfers (fst (receiptThen h (fst (receiptCatch h s))))
     = markStatus h success prev
  /\ completedTransfers (fst (receiptCatch h (fst (receiptThen h s))))
     = markStatus h failed prev.
Proof.
  intros prev.
  assert (Hlast : forall st1 st0,
            markStatus h st1 (markStatus h st0 prev) = markStatus h st1 prev).
  { intros st1 st0. unfold markStatus. rewrite map_map.
    apply map_ext. intros t.
    destruct (decide (hash t = h)) as [E|E]; cbn.
    - destruct (decide (hash t = h)); [reflexivity | contradiction].
    - destruct (decide (hash t = h)); [contradiction | reflexivity]. }
  split; [apply markStatus_length|].
  split; [|split; [exact (Hlast st)|]].
  2:{ split; [reflexivity|]. split; [reflexivity|].
      split; cbn; apply Hlast. }
  intros n r Hr. rewrite markStatus_lookup, Hr. cbn.
  destruct (decide (hash r = h)) as [E|E].
  - eexists; split; [reflexivity|]. cbn.
    repeat split; try congruence.
    intros _ Hst. destruct r; cbn in *; congruence.
  - exists r. repeat split; congruence.
Qed.

Lemma markStatus_last_applied_wins_witness :
  nth_error (markStatus h2 success (completedTransfers batch_hash_arrived)) 0
  = Some (mkTransferResult (Some 1) h1 pending).
Proof.
  destruct (markStatus_last_applied_wins h2 success batch_hash_arrived)
    as (_ & Hrec & _).
  destruct (Hrec 0%nat (mkTransferResult (Some 1) h1 pending) eq_refl)
    as (r' & Hlook & _ & _ & _ & _ & Hother).
  rewrite Hlook. f_equal. apply Hother. discriminate.
Defined.

(** C2 as stated fails: a record already [failed] is overwritten by a late
    success callback for its handle, and a record already [success] by a
    late failure callback. *)
Lemma late_callback_overwrites_terminal_status :
  completedTransfers batch_failed = [mkTransferResult (Some 7) h1 failed]
  /\ completedTransfers (fst (receiptThen h1 batch_failed))
     = [mkTransferResult (Some 7) h1 success]
  /\ completedTransfers (fst (receiptThen h1 batch_failed))
     <> completedTransfers batch_failed
  /\ completedTransfers (fst (receiptCatch h1 batch_done))
     <> completedTransfers batch_done.
Proof.
  split; [reflexivity|]. split; [vm_compute; reflexivity|].
  split; vm_compute; discriminate.
Qed.

(** ** One watch and one record per handle during a batch run *)

Lemma watch_count_app h es1 es2 :
  watch_count h (es1 ++ es2) = (watch_count h es1 + watch_count h es2)%nat.
Proof. apply count_occ_app. Qed.

Lemma watch_count_watch h h' :
  watch_count h [WaitForTransactionReceipt h']
  = if decide (h' = h) then 1%nat else 0%nat.
Proof.
  unfold watch_count. destruct (decide (h' = h)) as [->|Hne].
  - rewrite count_occ_cons_eq; reflexivity.
  - rewrite count_occ_cons_neq; [reflexivity | congruence].
Qed.

Lemma session_run_cons publicClient e es w :
  session_run publicClient (e :: es) w
  = session_run publicClient es (session_step publicClient e w).
Proof. reflexivity. Qed.

(** Running the hash-arrival effect again on the state it produced does
    nothing: the signer was reset, or the queue is exhausted, and in any case
    the handle is in the processed set. *)
Lemma hashEffect_twice (publicClient : bool) (s : Hook) :
  hashEffect publicClient (fst (hashEffect publicClient s))
  = (fst (hashEffect publicClient s), []).
Proof.
  destruct (data (write s)) as [h|] eqn:Hd.
  2:{ unfold hashEffect. rewrite Hd. cbn [fst]. rewrite Hd. reflexivity. }
  destruct (negb (isTransferring s) || (currentIndex s >=? len (queue s)))
    eqn:Hg.
  { unfold hashEffect. rewrite Hd, Hg. cbn [fst]. rewrite Hd, Hg.
    reflexivity. }
  destruct (decide (h ∈ processedHashesRef s)) as [Hin|Hnew].
  { unfold hashEffect. rewrite Hd, Hg.
    destruct (decide (h ∈ processedHashesRef s)); [|contradiction].
    cbn [fst]. rewrite Hd, Hg.
    destruct (decide (h ∈ processedHashesRef s)); [|contradiction].
    reflexivity. }
  apply orb_false_elim in Hg as [Ht Hi]. apply negb_false_iff in Ht. zbool.
  rewrite (hashEffect_new_handle_eq publicClient s h Ht Hi Hd Hnew).
  cbv zeta.
  destruct (currentIndex s + 1 <? len (queue s)) eqn:E; cbn [fst].
  - reflexivity.
  - unfold hashEffect. cbn. rewrite Hd, Ht. cbn [negb orb].
    zbool.
    destruct (currentIndex s + 1 >=? len (queue s)) eqn:E'; zbool;
      [reflexivity | lia].
Qed.

(** ** Calls from the latest render and from an earlier one *)

Lemma autoExecuteFirst_of_view s :
  autoExecuteFirst_of (view s) s = autoExecuteFirst s.
Proof. reflexivity. Qed.

Lemma hashEffect_of_view publicClient s :
  hashEffect_of publicClient (view s) s = hashEffect publicClient s.
Proof. reflexivity. Qed.

Lemma autoExecuteNext_of_view s :
  autoExecuteNext_of (view s) s = autoExecuteNext s.
Proof. reflexivity. Qed.

Lemma checkDone_of_view s : checkDone_of (view s) s = checkDone s.
Proof. reflexivity. Qed.

Lemma skip_of_view s : skip_of (view s) s = skip s.
Proof. reflexivity. Qed.

Lemma retry_of_view s : retry_of (view s) s = retry s.
Proof. reflexivity. Qed.

(** A call from the render of the current state is the call [step] makes. *)
Lemma react_step_latest publicClient e w :
  from_current_render e w ->
  react_step publicClient e w = step publicClient (latest e) w.
Proof.
  destruct e as [[e|c]|params from_|]; try reflexivity.
  cbn [from_current_render]. intros Hv.
  destruct c; cbn [render_from] in Hv; subst v; reflexivity.
Qed.

Lemma react_run_latest publicClient es :
  forall w,
    rendered_between_calls publicClient es w ->
    react_run publicClient es w = run publicClient (map latest es) w.
Proof.
  induction es as [|e es IH]; intros w Hw; [reflexivity|].
  destruct Hw as [He Hes].
  change (react_run publicClient (e :: es) w)
    with (react_run publicClient es (react_step publicClient e w)).
  change (run publicClient (map latest (e :: es)) w)
    with (run publicClient (map latest es)
              (step publicClient (latest e) w)).
  rewrite <- (react_step_latest publicClient e w He).
  apply IH, Hes.
Qed.

Lemma appended_pending_same h l : appended_pending h l l = false.
Proof.
  unfold appended_pending.
  rewrite (proj2 (nth_error_None l (length l))); [reflexivity | lia].
Qed.

Lemma appended_pending_markStatus h h' st l :
  appended_pending h l (markStatus h' st l) = false.
Proof.
  unfold appended_pending.
  rewrite (proj2 (nth_error_None (markStatus h' st l) (length l)));
    [reflexivity | rewrite markStatus_length; lia].
Qed.

Lemma appended_pending_snoc h l r :
  appended_pending h l (l ++ [r])
  = bool_decide (hash r = h) && bool_decide (status r = pending).
Proof.
  unfold appended_pending.
  rewrite nth_error_app2, Nat.sub_diag by lia. cbn [nth_error].
  rewrite length_app. cbn [length].
  replace (length l + 1 =? S (length l))%nat with true;
    [reflexivity | symmetry; apply Nat.eqb_eq; lia].
Qed.

Lemma books_once_quiet h s r :
  processedHashesRef (fst r) = processedHashesRef s ->
  watch_count h (snd r) = 0%nat ->
  appended_pending h (completedTransfers s) (completedTransfers (fst r))
  = false ->
  books_once h s r.
Proof.
  intros Hp Hw Ha. unfold books_once. rewrite Hp, Ha.
  split; [reflexivity|]. split; [left; exact Hw|]. discriminate.
Qed.

Lemma executeCurrentTransfer_of_books_once h r s :
  books_once h s (executeCurrentTransfer_of r s).
Proof.
  assert (Hsame : books_once h s (s, [])).
  { apply books_once_quiet; [reflexivity | reflexivity |].
    apply appended_pending_same. }
  unfold executeCurrentTransfer_of.
  destruct (r_transferParams r); [|exact Hsame].
  destruct (_ >=? _); [exact Hsame|].
  destruct (_ =? _); [exact Hsame|].
  destruct (isExecutingRef s); [exact Hsame|].
  apply books_once_quiet; [reflexivity | reflexivity |].
  apply appended_pending_same.
Qed.

Lemma same_books_once h s : books_once h s (s, []).
Proof.
  apply books_once_quiet; [reflexivity | reflexivity |].
  apply appended_pending_same.
Qed.

Lemma hashEffect_of_books_once publicClient h v s :
  books_once h s (hashEffect_of publicClient v s).
Proof.
  unfold hashEffect_of.
  destruct (data (v_write v)) as [h'|]; [|apply same_books_once].
  destruct (_ || _); [apply same_books_once|].
  destruct (decide (h' ∈ processedHashesRef s)) as [Hin|Hnew];
    [apply same_books_once|].
  cbv zeta.
  assert (Hwatch :
            watch_count h (if publicClient
                           then [WaitForTransactionReceipt h'] else [])
            = 0%nat
            \/ (watch_count h (if publicClient
                               then [WaitForTransactionReceipt h'] else [])
                = 1%nat /\ h' = h)).
  { destruct publicClient; [|left; reflexivity].
    rewrite watch_count_watch.
    destruct (decide (h' = h)); [right; split; [reflexivity|assumption]
                                |left; reflexivity]. }
  assert (Hbooks :
            forall s' es,
              processedHashesRef s' = {[h']} ∪ processedHashesRef s ->
              completedTransfers s'
              = completedTransfers s
                ++ [mkTransferResult (queue_at (v_queue v) (v_currentIndex v))
                                     h' pending] ->
              watch_count h es
              = watch_count h (if publicClient
                               then [WaitForTransactionReceipt h'] else []) ->
              books_once h s (s', es)).
  { intros s' es Hp Hc He. unfold books_once. cbn [fst snd].
    rewrite Hp, Hc, He, appended_pending_snoc. cbn [hash status].
    split; [apply union_subseteq_r|].
    split.
    - destruct Hwatch as [H0 | [H1 Heq]]; [left; exact H0|].
      right. subst h'. split; [exact H1|]. split; [exact Hnew|].
      apply elem_of_union_l, elem_of_singleton. reflexivity.
    - intros Ha. apply andb_prop in Ha as [Hh _].
      apply bool_decide_eq_true in Hh. subst h'.
      split; [exact Hnew|].
      apply elem_of_union_l, elem_of_singleton. reflexivity. }
  destruct (_ <? _).
  - cbn [resetWrite]. apply Hbooks; [reflexivity | reflexivity |].
    rewrite watch_count_app.
    assert (H0 : watch_count h [ResetWrite] = 0%nat).
    { unfold watch_count. apply count_occ_not_In.
      intros [H | []]. discriminate. }
    rewrite H0. lia.
  - apply Hbooks; reflexivity.
Qed.

Lemma skip_of_books_once h v s : books_once h s (skip_of v s).
Proof.
  unfold skip_of. destruct (_ || _); [apply same_books_once|].
  cbv zeta.
  destruct (_ <? _); (apply books_once_quiet; [reflexivity | reflexivity |]);
    cbn; rewrite appended_pending_snoc; cbn [status];
    apply andb_false_r.
Qed.

Lemma retry_of_books_once h v s : books_once h s (retry_of v s).
Proof.
  unfold retry_of. destruct (_ || _); [apply same_books_once|].
  apply books_once_quiet; [reflexivity | reflexivity |].
  apply appended_pending_same.
Qed.

Lemma signerSettles_books_once h ws s : books_once h s (signerSettles ws s).
Proof.
  unfold signerSettles. destruct (isPending (write s));
    [|apply same_books_once].
  apply books_once_quiet; [reflexivity | reflexivity |].
  apply appended_pending_same.
Qed.

(** Every event of a batch run is one callback or effect result committed, and
    it books the handle at most once. *)
Lemma batch_step_books_once publicClient h e w :
  exists r,
    hook (batch_step publicClient e w) = fst r
    /\ calls (batch_step publicClient e w) = calls w ++ snd r
    /\ books_once h (hook w) r.
Proof.
  assert (Hsame : exists r, hook w = fst r /\ calls w = calls w ++ snd r
                            /\ books_once h (hook w) r).
  { exists (hook w, []). cbn [fst snd]. rewrite app_nil_r.
    split; [reflexivity|]. split; [reflexivity|]. apply same_books_once. }
  assert (Hcommit : forall r, books_once h (hook w) r ->
            exists r0, hook (commit w r) = fst r0
                       /\ calls (commit w r) = calls w ++ snd r0
                       /\ books_once h (hook w) r0).
  { intros r Hr. exists r. split; [reflexivity|]. split; [reflexivity|].
    exact Hr. }
  destruct e as [e|c]; cbn [batch_step].
  - destruct e; cbn [session_step].
    + apply Hcommit. unfold autoExecuteFirst.
      destruct (_ && _); [apply executeCurrentTransfer_of_books_once
                         |apply same_books_once].
    + apply Hcommit. rewrite <- hashEffect_of_view.
      apply hashEffect_of_books_once.
    + apply Hcommit. unfold autoExecuteNext.
      destruct (_ || _); [apply same_books_once|].
      destruct (_ || _); [apply same_books_once|].
      destruct (_ =? _); [apply same_books_once|].
      apply books_once_quiet; [reflexivity | reflexivity |].
      apply appended_pending_same.
    + apply Hcommit. unfold checkDone.
      destruct (_ && _); [|apply same_books_once].
      apply books_once_quiet; [reflexivity | reflexivity |].
      apply appended_pending_same.
    + destruct (nth_error (timers w) n) as [r|]; [|exact Hsame].
      apply (Hcommit (executeCurrentTransfer_of r (hook w))).
      apply executeCurrentTransfer_of_books_once.
    + apply Hcommit, signerSettles_books_once.
    + apply Hcommit, signerSettles_books_once.
    + destruct (nth_error (watchers w) n) as [h'|]; [|exact Hsame].
      apply (Hcommit (receiptThen h' (hook w))).
      apply books_once_quiet; [reflexivity | reflexivity |].
      apply appended_pending_markStatus.
    + destruct (nth_error (watchers w) n) as [h'|]; [|exact Hsame].
      apply (Hcommit (receiptCatch h' (hook w))).
      apply books_once_quiet; [reflexivity | reflexivity |].
      apply appended_pending_markStatus.
    + apply Hcommit. rewrite <- skip_of_view. apply skip_of_books_once.
    + apply Hcommit. rewrite <- retry_of_view. apply retry_of_books_once.
  - destruct c; cbn [from_render_step]; apply Hcommit.
    + unfold autoExecuteFirst_of.
      destruct (_ && _); [apply executeCurrentTransfer_of_books_once
                         |apply same_books_once].
    + apply hashEffect_of_books_once.
    + unfold autoExecuteNext_of.
      destruct (_ || _); [apply same_books_once|].
      destruct (_ || _); [apply same_books_once|].
      destruct (_ =? _); [apply same_books_once|].
      apply books_once_quiet; [reflexivity | reflexivity |].
      apply appended_pending_same.
    + unfold checkDone_of.
      destruct (_ && _); [|apply same_books_once].
      apply books_once_quiet; [reflexivity | reflexivity |].
      apply appended_pending_same.
    + apply skip_of_books_once.
    + apply retry_of_books_once.
Qed.

Lemma batch_steps_books_once publicClient h es :
  forall w,
    processedHashesRef (hook w)
    ⊆ processedHashesRef (hook (batch_steps publicClient es w))
    /\ (watches_started h (batch_steps publicClient es w)
        <= watches_started h w + 1)%nat
    /\ (pending_appends publicClient h es w <= 1)%nat
    /\ (h ∈ processedHashesRef (hook w) ->
        watches_started h (batch_steps publicClient es w)
        = watches_started h w
        /\ pending_appends publicClient h es w = 0%nat).
Proof.
  induction es as [|e es IH]; intros w.
  { cbn. split; [reflexivity|]. split; [lia|]. split; [lia|]. auto. }
  change (batch_steps publicClient (e :: es) w)
    with (batch_steps publicClient es (batch_step publicClient e w)).
  cbn [pending_appends]. cbv zeta.
  destruct (batch_step_books_once publicClient h e w)
    as (r & Hh & Hc & Hsub & Hwatch & Happ).
  destruct (IH (batch_step publicClient e w)) as (I0 & I1 & I2 & I3).
  rewrite Hh in I0, I3.
  assert (Hw1 : watches_started h (batch_step publicClient e w)
                = (watches_started h w + watch_count h (snd r))%nat).
  { unfold watches_started. rewrite Hc. apply watch_count_app. }
  rewrite Hh.
  destruct (appended_pending h (completedTransfers (hook w))
                               (completedTransfers (fst r))) eqn:Ea.
  - destruct (Happ eq_refl) as [Hnew Hin].
    destruct (I3 Hin) as [J1 J2].
    split; [etransitivity; eassumption|].
    split; [destruct Hwatch as [H0 | [H1 _]]; lia|].
    split; [lia|]. intros Hold. contradiction.
  - destruct Hwatch as [H0 | (H1 & Hnew & Hin)].
    + split; [etransitivity; eassumption|].
      split; [lia|]. split; [lia|].
      intros Hold. destruct (I3 (Hsub _ Hold)) as [J1 J2]. lia.
    + destruct (I3 Hin) as [J1 J2].
      split; [etransitivity; eassumption|].
      split; [lia|]. split; [lia|]. intros Hold. contradiction.
Qed.

(** What an event of a batch run does to the records: nothing, a
    confirmation callback, or one record appended. *)
Lemma batch_step_records publicClient e w :
  let before := completedTransfers (hook w) in
  let after := completedTransfers (hook (batch_step publicClient e w)) in
  after = before
  \/ (exists h st, st <> pending /\ after = markStatus h st before)
  \/ (exists r, after = before ++ [r]).
Proof.
  cbv zeta.
  assert (Hexec : forall r s,
            completedTransfers (fst (executeCurrentTransfer_of r s))
            = completedTransfers s).
  { intros r s. unfold executeCurrentTransfer_of.
    destruct (r_transferParams r); [|reflexivity].
    destruct (_ >=? _); [reflexivity|].
    destruct (_ =? _); [reflexivity|].
    destruct (isExecutingRef s); reflexivity. }
  assert (Hhash : forall v s,
            completedTransfers (fst (hashEffect_of publicClient v s))
            = completedTransfers s
            \/ exists r,
                 completedTransfers (fst (hashEffect_of publicClient v s))
                 = completedTransfers s ++ [r]).
  { intros v s. unfold hashEffect_of.
    destruct (data (v_write v)) as [h|]; [|left; reflexivity].
    destruct (_ || _); [left; reflexivity|].
    destruct (decide _); [left; reflexivity|].
    cbv zeta. right. destruct (_ <? _); eexists; reflexivity. }
  assert (Hskip : forall v s,
            completedTransfers (fst (skip_of v s)) = completedTransfers s
            \/ exists r,
                 completedTransfers (fst (skip_of v s))
                 = completedTransfers s ++ [r]).
  { intros v s. unfold skip_of.
    destruct (_ || _); [left; reflexivity|].
    cbv zeta. right. destruct (_ <? _); eexists; reflexivity. }
  assert (Hretry : forall v s,
            completedTransfers (fst (retry_of v s)) = completedTransfers s).
  { intros v s. unfold retry_of. destruct (_ || _); reflexivity. }
  assert (Hsettle : forall ws s,
            completedTransfers (fst (signerSettles ws s))
            = completedTransfers s).
  { intros ws s. unfold signerSettles.
    destruct (isPending (write s)); reflexivity. }
  destruct e as [e|c]; cbn [batch_step].
  - destruct e; cbn [session_step commit hook].
    + left. unfold autoExecuteFirst.
      destruct (_ && _); [apply Hexec | reflexivity].
    + rewrite <- hashEffect_of_view.
      destruct (Hhash (view (hook w)) (hook w)) as [H | H]; auto.
    + left. unfold autoExecuteNext.
      destruct (_ || _); [reflexivity|].
      destruct (_ || _); [reflexivity|].
      destruct (_ =? _); reflexivity.
    + left. unfold checkDone. destruct (_ && _); reflexivity.
    + destruct (nth_error (timers w) n) as [r|]; [|left; reflexivity].
      left. cbn [commit hook]. apply Hexec.
    + left. apply Hsettle.
    + left. apply Hsettle.
    + destruct (nth_error (watchers w) n) as [h'|]; [|left; reflexivity].
      right; left. exists h', success. split; [discriminate|reflexivity].
    + destruct (nth_error (watchers w) n) as [h'|]; [|left; reflexivity].
      right; left. exists h', failed. split; [discriminate|reflexivity].
    + rewrite <- skip_of_view.
      destruct (Hskip (view (hook w)) (hook w)) as [H | H]; auto.
    + left. rewrite <- retry_of_view. apply Hretry.
  - destruct c; cbn [from_render_step commit hook].
    + left. unfold autoExecuteFirst_of.
      destruct (_ && _); [apply Hexec | reflexivity].
    + destruct (Hhash v (hook w)) as [H | H]; auto.
    + left. unfold autoExecuteNext_of.
      destruct (_ || _); [reflexivity|].
      destruct (_ || _); [reflexivity|].
      destruct (_ =? _); reflexivity.
    + left. unfold checkDone_of. destruct (_ && _); reflexivity.
    + destruct (Hskip v (hook w)) as [H | H]; auto.
    + left. apply Hretry.
Qed.

(** A confirmation callback leaves no more pending records than it found. *)
Lemma pending_after_markStatus h h' st l :
  st <> pending ->
  (length (List.filter (fun r => bool_decide (hash r = h)
                                 && bool_decide (status r = pending))
                       (markStatus h' st l))
   <= length (List.filter (fun r => bool_decide (hash r = h)
                                    && bool_decide (status r = pending))
                          l))%nat.
Proof.
  intros Hst. induction l as [|r l IH]; [reflexivity|].
  cbn [markStatus map List.filter].
  change (map _ l) with (markStatus h' st l).
  destruct (decide (hash r = h')) as [Heq | Hne].
  - cbn [hash status].
    replace (bool_decide (st = pending)) with false
      by (symmetry; apply bool_decide_eq_false; exact Hst).
    rewrite andb_false_r.
    destruct (_ && _); cbn [length]; lia.
  - destruct (_ && _); cbn [length]; lia.
Qed.

(** The pending records of a handle grow only by a pending record appended
    for it. *)
Lemma batch_step_pending_records publicClient h e w :
  (pending_records h (hook (batch_step publicClient e w))
   <= pending_records h (hook w)
      + (if appended_pending h
              (completedTransfers (hook w))
              (completedTransfers (hook (batch_step publicClient e w)))
         then 1 else 0))%nat.
Proof.
  unfold pending_records.
  destruct (batch_step_records publicClient e w)
    as [Heq | [(h' & st & Hst & Heq) | (r & Heq)]]; rewrite Heq.
  - lia.
  - pose proof (pending_after_markStatus h h' st
                  (completedTransfers (hook w)) Hst).
    lia.
  - rewrite appended_pending_snoc, List.filter_app, length_app.
    cbn [List.filter].
    destruct (_ && _); cbn [length]; lia.
Qed.

Lemma batch_steps_pending_records publicClient h es :
  forall w,
    (pending_records h (hook (batch_steps publicClient es w))
     <= pending_records h (hook w) + pending_appends publicClient h es w)%nat.
Proof.
  induction es as [|e es IH]; intros w; [cbn; lia|].
  change (batch_steps publicClient (e :: es) w)
    with (batch_steps publicClient es (batch_step publicClient e w)).
  cbn [pending_appends]. cbv zeta.
  pose proof (IH (batch_step publicClient e w)).
  pose proof (batch_step_pending_records publicClient h e w).
  lia.
Qed.

(** Run twice in a row from the same render, the hash-arrival effect does
    nothing the second time. *)
Lemma hashEffect_of_twice publicClient v s :
  hashEffect_of publicClient v (fst (hashEffect_of publicClient v s))
  = (fst (hashEffect_of publicClient v s), []).
Proof.
  unfold hashEffect_of.
  destruct (data (v_write v)) as [h|] eqn:Hd; [|reflexivity].
  destruct (negb (v_isTransferring v)
            || (v_currentIndex v >=? len (v_queue v))) eqn:Hg;
    [reflexivity|].
  destruct (decide (h ∈ processedHashesRef s)) as [Hin|Hnew].
  { cbn [fst].
    destruct (decide (h ∈ processedHashesRef s)); [reflexivity|contradiction]. }
  cbv zeta.
  assert (Hin : h ∈ {[h]} ∪ processedHashesRef s)
    by (apply elem_of_union_l, elem_of_singleton; reflexivity).
  destruct (v_currentIndex v + 1 <? len (v_queue v)); cbn;
    destruct (decide (h ∈ {[h]} ∪ processedHashesRef s));
    try reflexivity; contradiction.
Qed.




(** ** Cursor and records along a run *)

Lemma records_follow_cursor_same (s s' : Hook) :
  queue s' = queue s ->
  currentIndex s' = currentIndex s ->
  completedTransfers s' = completedTransfers s ->
  records_follow_cursor s -> records_follow_cursor s'.
Proof.
  unfold records_follow_cursor. intros -> -> ->. exact id.
Qed.

Lemma records_follow_cursor_append (s s' : Hook) (h : Hash) (st : Status) :
  queue s' = queue s ->
  currentIndex s' = currentIndex s + 1 ->
  completedTransfers s'
  = completedTransfers s
    ++ [mkTransferResult (queue_at (queue s) (currentIndex s)) h st] ->
  records_follow_cursor s -> records_follow_cursor s'.
Proof.
  unfold records_follow_cursor. intros -> -> -> (Hpos & Hlen & Hrec).
  split; [lia|]. split; [rewrite len_app; unfold len in *; cbn; lia|].
  intros n r Hn.
  destruct (Nat.lt_ge_cases n (length (completedTransfers s))) as [Hlt|Hge].
  - rewrite nth_error_app1 in Hn by exact Hlt. apply Hrec. exact Hn.
  - rewrite nth_error_app2 in Hn by exact Hge.
    destruct (n - length (completedTransfers s))%nat as [|k] eqn:Ek.
    + cbn in Hn. injection Hn as <-. cbn [tokenId].
      unfold queue_at. destruct (currentIndex s <? 0) eqn:E; zbool; [lia|].
      f_equal. unfold len in Hlen. lia.
    + cbn in Hn. destruct k; discriminate.
Qed.

Lemma records_follow_cursor_markStatus (s : Hook) (h : Hash) (st : Status) :
  records_follow_cursor s ->
  records_follow_cursor (setCompletedTransfers (markStatus h st) s).
Proof.
  unfold records_follow_cursor. intros (Hpos & Hlen & Hrec). cbn.
  split; [exact Hpos|].
  split; [unfold len in *; rewrite markStatus_length; exact Hlen|].
  intros n r Hn. rewrite markStatus_lookup in Hn.
  destruct (nth_error (completedTransfers s) n) as [r0|] eqn:E;
    [|discriminate].
  cbn in Hn. injection Hn as <-. specialize (Hrec n r0 E).
  destruct (decide (hash r0 = h)); exact Hrec.
Qed.

Lemma executeCurrentTransfer_of_follows r s :
  records_follow_cursor s ->
  records_follow_cursor (fst (executeCurrentTransfer_of r s)).
Proof.
  apply records_follow_cursor_same; unfold executeCurrentTransfer_of;
    destruct (r_transferParams r); try reflexivity;
    destruct (_ >=? _); try reflexivity;
    destruct (_ =? _); try reflexivity;
    destruct (isExecutingRef s); reflexivity.
Qed.

Lemma hashEffect_follows publicClient s :
  records_follow_cursor s ->
  records_follow_cursor (fst (hashEffect publicClient s)).
Proof.
  destruct (data (write s)) as [h|] eqn:Hd.
  2:{ unfold hashEffect. rewrite Hd. exact id. }
  destruct (negb (isTransferring s) || (currentIndex s >=? len (queue s)))
    eqn:Hg.
  { unfold hashEffect. rewrite Hd, Hg. exact id. }
  destruct (decide (h ∈ processedHashesRef s)) as [Hin|Hnew].
  { unfold hashEffect. rewrite Hd, Hg.
    destruct (decide (h ∈ processedHashesRef s)); [exact id|contradiction]. }
  apply orb_false_elim in Hg as [Ht Hi]. apply negb_false_iff in Ht. zbool.
  rewrite (hashEffect_new_handle_eq publicClient s h Ht Hi Hd Hnew).
  cbv zeta.
  destruct (_ <? _);
    apply (records_follow_cursor_append s _ h pending); reflexivity.
Qed.

Lemma skip_follows s :
  records_follow_cursor s -> records_follow_cursor (fst (skip s)).
Proof.
  unfold skip.
  destruct (negb (isTransferring s) || negb (defined (error (write s))));
    [exact id|].
  cbv zeta.
  destruct (_ <? _);
    apply (records_follow_cursor_append s _ hash_0x failed); reflexivity.
Qed.

Lemma startTransfer_follows params from_ s :
  records_follow_cursor s ->
  records_follow_cursor (fst (startTransfer params from_ s)).
Proof.
  intros H. unfold startTransfer. destruct (_ =? _); [exact H|].
  unfold records_follow_cursor. cbn. split; [lia|]. split; [reflexivity|].
  intros [|n] r Hn; discriminate.
Qed.

(** The part of the cursor invariant that a run of [step] keeps, every
    callback and effect being called from the latest render:
    [0 <= currentIndex], as many records as [currentIndex], and the record at
    each position carries that position's token. *)
Lemma run_records_follow_cursor publicClient (es : list Event) :
  forall w,
    records_follow_cursor (hook w) ->
    records_follow_cursor (hook (run publicClient es w)).
Proof.
  induction es as [|e es IH]; intros w Hw; [exact Hw|].
  change (run publicClient (e :: es) w)
    with (run publicClient es (step publicClient e w)).
  apply IH. clear IH.
  destruct e as [params from_| |e]; cbn [step commit hook].
  - apply startTransfer_follows, Hw.
  - unfold records_follow_cursor. cbn. split; [lia|]. split; [reflexivity|].
    intros [|n] r Hn; discriminate.
  - destruct e; cbn [session_step commit hook].
    + unfold autoExecuteFirst. destruct (_ && _); [|exact Hw].
      apply executeCurrentTransfer_of_follows, Hw.
    + apply hashEffect_follows, Hw.
    + unfold autoExecuteNext.
      destruct (_ || _ || _); [exact Hw|].
      destruct (_ || _); [exact Hw|].
      destruct (_ =? _); exact Hw.
    + unfold checkDone. destruct (_ && _); exact Hw.
    + destruct (nth_error (timers w) n); [|exact Hw].
      cbn [hook commit]. apply executeCurrentTransfer_of_follows, Hw.
    + unfold signerSettles. destruct (isPending _); exact Hw.
    + unfold signerSettles. destruct (isPending _); exact Hw.
    + destruct (nth_error (watchers w) n); [|exact Hw].
      cbn [hook commit receiptThen fst].
      apply records_follow_cursor_markStatus, Hw.
    + destruct (nth_error (watchers w) n); [|exact Hw].
      cbn [hook commit receiptCatch fst].
      apply records_follow_cursor_markStatus, Hw.
    + apply skip_follows, Hw.
    + unfold retry.
      destruct (negb (isTransferring (hook w)) || _); exact Hw.
Qed.

(** [executeCurrentTransfer] leaves what the render captured untouched. *)
Lemma executeCurrentTransfer_of_render (r : Render) (s : Hook) :
  render (fst (executeCurrentTransfer_of r s)) = render s.
Proof.
  unfold executeCurrentTransfer_of.
  destruct (r_transferParams r); [|reflexivity].
  destruct (_ >=? _); [reflexivity|].
  destruct (_ =? _); [reflexivity|].
  destruct (isExecutingRef s); reflexivity.
Qed.

(** A second invocation in a row finds the guard token set (or the first one
    already refused) and does nothing. *)
Lemma executeCurrentTransfer_twice (s : Hook) :
  executeCurrentTransfer (fst (executeCurrentTransfer s))
  = (fst (executeCurrentTransfer s), []).
Proof.
  unfold executeCurrentTransfer.
  rewrite executeCurrentTransfer_of_render.
  unfold executeCurrentTransfer_of.
  destruct (r_transferParams (render s)) as [tp|] eqn:Etp; [|reflexivity].
  destruct (r_currentIndex (render s) >=? len (r_queue (render s))) eqn:E1;
    [reflexivity|].
  destruct (lastExecutedIndexRef s =? r_currentIndex (render s)) eqn:E2;
    [cbn [fst]; rewrite E2; reflexivity|].
  destruct (isExecutingRef s) eqn:E3;
    [cbn [fst]; rewrite E2, E3; reflexivity|].
  cbn. rewrite Z.eqb_refl. reflexivity.
Qed.

(** C3 fails on the code.  On the queue [1; 2], after token 1 is submitted
    and token 2 is refused by the signer, the first [skip] moves the cursor
    to 2, the end of the queue, without resetting the signer; the error is
    still outstanding and the batch still transferring (token 1 is
    unconfirmed), so a second [skip] passes its guard, appends a record for
    [queue[2]], which is [undefined], and moves the cursor to 3, beyond
    [queue.length]; the batch can then never complete. *)
Theorem skip_twice_overruns_queue :
  let before := hook (run true (removelast skip_twice_trace) mounted) in
  let after := hook (run true skip_twice_trace mounted) in
  currentIndex before = 2
  /\ len (queue before) = 2
  /\ isTransferring before = true
  /\ error (write before) = Some "User rejected the request."%string
  /\ queue after = [1; 2]
  /\ currentIndex after = 3
  /\ ~ (currentIndex after <= len (queue after))
  /\ completedTransfers after
     = [mkTransferResult (Some 1) h1 pending;
        mkTransferResult (Some 2) hash_0x failed;
        mkTransferResult None hash_0x failed]
  /\ isTransferring after = true
  /\ isComplete after = false
  /\ isComplete (fst (receiptThen h1 after)) = false.
Proof.
  vm_compute. repeat split; try reflexivity. intros H. apply H. reflexivity.
Qed.

(** The scenario of the specification runs as it says: three records, in
    queue order, [currentIndex] 3, all submitted, and the batch complete and
    no longer transferring once both receipts are in. *)
Example scenario_completes :
  let s := hook (run true scenario_trace mounted) in
  currentIndex s = 3
  /\ completedTransfers s
     = [mkTransferResult (Some 1) h1 success;
        mkTransferResult (Some 2) hash_0x failed;
        mkTransferResult (Some 3) h3 success]
  /\ allTransfersSubmitted s = true
  /\ isComplete s = true
  /\ isTransferring s = false.
Proof. vm_compute. repeat split; reflexivity. Qed.

(** ** A batch submitted without errors *)

Lemma queue_at_nth (q : list Z) (k : nat) :
  queue_at q (Z.of_nat k) = nth_error q k.
Proof.
  unfold queue_at. destruct (Z.of_nat k <? 0) eqn:E; zbool; [lia|].
  rewrite Nat2Z.id. reflexivity.
Qed.

(** [executeCurrentTransfer] with all four preconditions met. *)
Lemma executeCurrentTransfer_fires (s : Hook) (tp : TransferParams) :
  transferParams s = Some tp ->
  currentIndex s < len (queue s) ->
  lastExecutedIndexRef s <> currentIndex s ->
  isExecutingRef s = false ->
  executeCurrentTransfer_of (render s) s
  = (set_write write_pending
       (set_isExecutingRef true
          (set_lastExecutedIndexRef (currentIndex s) s)),
     [WriteContract (contractAddress tp) (from tp) (to tp)
                    (queue_at (queue s) (currentIndex s))]).
Proof.
  intros Htp Hi Hle Hie. unfold executeCurrentTransfer_of, render.
  cbn [r_transferParams r_currentIndex r_queue]. rewrite Htp.
  destruct (_ >=? _) eqn:E1; zbool; [lia|].
  destruct (_ =? _) eqn:E2; zbool; [contradiction|].
  rewrite Hie. reflexivity.
Qed.

Lemma autoExecuteFirst_fires (s : Hook) (tp : TransferParams) :
  transferParams s = Some tp ->
  isTransferring s = true ->
  currentIndex s = 0 ->
  queue s <> [] ->
  data (write s) = None ->
  isPending (write s) = false ->
  lastExecutedIndexRef s <> 0 ->
  isExecutingRef s = false ->
  autoExecuteFirst s
  = (set_write write_pending
       (set_isExecutingRef true (set_lastExecutedIndexRef 0 s)),
     [WriteContract (contractAddress tp) (from tp) (to tp)
                    (nth_error (queue s) 0)]).
Proof.
  intros Htp Ht Hi Hq Hd Hp Hle Hie. unfold autoExecuteFirst.
  assert (Hlen : 0 < len (queue s)).
  { unfold len. destruct (queue s); [contradiction|cbn; lia]. }
  rewrite Htp, Ht, Hi, Hd, Hp. cbn [defined andb negb].
  rewrite Z.eqb_refl.
  destruct (len (queue s) >? 0) eqn:E; zbool; [|lia].
  cbn [andb]. unfold executeCurrentTransfer.
  rewrite (executeCurrentTransfer_fires s tp Htp) by (try assumption; lia).
  rewrite Hi. reflexivity.
Qed.

Lemma autoExecuteNext_schedules (s : Hook) :
  isTransferring s = true ->
  currentIndex s <> 0 ->
  currentIndex s < len (queue s) ->
  data (write s) = None ->
  isPending (write s) = false ->
  lastExecutedIndexRef s <> currentIndex s ->
  autoExecuteNext s = (s, [SetTimeout 50 (render s)]).
Proof.
  intros Ht Hi Hlt Hd Hp Hle. unfold autoExecuteNext.
  rewrite Ht, Hd, Hp. cbn [negb orb defined].
  destruct (_ =? _) eqn:E1; zbool; [contradiction|].
  destruct (_ >=? _) eqn:E2; zbool; [lia|]. cbn [orb].
  destruct (_ =? _) eqn:E3; zbool; [contradiction|]. reflexivity.
Qed.

(** Sending position [k] to the signer, from a batch that is ready for it. *)
Lemma dispatch_run publicClient q tp k t recs ph le cl wt :
  le < Z.of_nat k ->
  nth_error q k = Some t ->
  exists cl1,
    session_run publicClient (dispatch k)
      (mkWorld (mkHook q (Z.of_nat k) true recs (Some tp) ph le false
                       write_idle) cl [] wt)
    = mkWorld (mkHook q (Z.of_nat k) true recs (Some tp) ph (Z.of_nat k) true
                      write_pending) (cl ++ cl1) [] wt
    /\ writes_of cl1 = [transfer_call tp t].
Proof.
  intros Hle Hnth.
  assert (Hk : (k < length q)%nat) by (apply nth_error_Some; congruence).
  set (s0 := mkHook q (Z.of_nat k) true recs (Some tp) ph le false write_idle).
  set (s1 := mkHook q (Z.of_nat k) true recs (Some tp) ph (Z.of_nat k) true
                    write_pending).
  destruct k as [|k].
  - exists [WriteContract (contractAddress tp) (from tp) (to tp) (Some t)].
    unfold dispatch, session_run. cbn [fold_left session_step hook].
    rewrite (autoExecuteFirst_fires s0 tp); try reflexivity;
      [|cbn; intros ->; discriminate|cbn in *; lia].
    unfold commit, s0, s1.
    cbn [fst snd hook calls timers watchers timers_of watchers_of flat_map
         app queue].
    rewrite Hnth, !app_nil_r. split; reflexivity.
  - exists [SetTimeout 50 (render s0);
            WriteContract (contractAddress tp) (from tp) (to tp) (Some t)].
    unfold dispatch, session_run. cbn [fold_left session_step hook].
    rewrite (autoExecuteNext_schedules s0); try reflexivity;
      [|cbn; lia|cbn; unfold len; lia|cbn; lia].
    unfold commit at 1.
    cbn [fst snd hook calls timers watchers timers_of watchers_of flat_map
         app nth_error].
    unfold commit. cbn [fst snd hook calls timers watchers].
    rewrite (executeCurrentTransfer_fires s0 tp); try reflexivity;
      [|cbn; unfold len; lia|cbn; lia].
    unfold s0, s1.
    cbn [fst snd timers_of watchers_of flat_map app remove_nth firstn skipn
         currentIndex queue].
    rewrite queue_at_nth, Hnth, <- app_assoc, !app_nil_r.
    split; reflexivity.
Qed.

(** From the request in flight for position [k] to the batch being ready
    for position [k+1], however the request ends. *)
Lemma answer_run publicClient q tp k t o :
  forall recs ph cl wt,
    nth_error q k = Some t ->
    (forall h, In h (handle_of o) -> h ∉ ph) ->
    let w' :=
      session_run publicClient (answer o)
        (mkWorld (mkHook q (Z.of_nat k) true recs (Some tp) ph (Z.of_nat k)
                         true write_pending) cl [] wt) in
    ready q tp (S k) w'
    /\ completedTransfers (hook w') = recs ++ [record_of t o]
    /\ (forall h, h ∈ processedHashesRef (hook w')
                  <-> In h (handle_of o) \/ h ∈ ph)
    /\ writes_of (calls w')
       = writes_of cl ++ repeat (transfer_call tp t) (attempts o - 1)
    /\ watchers w' = wt ++ (if publicClient then handle_of o else []).
Proof.
  induction o as [h|e|e o IH]; intros recs ph cl wt Hnth Hnew;
    assert (Hk : (k < length q)%nat) by (apply nth_error_Some; congruence);
    cbv zeta; cbn [answer].
  - (* the signer returns [h] *)
    assert (Hh : h ∉ ph) by (apply Hnew; left; reflexivity).
    unfold session_run. cbn [fold_left].
    set (s2 := mkHook q (Z.of_nat k) true recs (Some tp) ph (Z.of_nat k) true
                      (mkWrite (Some h) false None)).
    assert (Hsettle :
      session_step publicClient (SignerResolves h)
        (mkWorld (mkHook q (Z.of_nat k) true recs (Some tp) ph (Z.of_nat k)
                         true write_pending) cl [] wt)
      = mkWorld s2 cl [] wt).
    { unfold session_step, commit, signerSettles, s2. cbn.
      rewrite !app_nil_r. reflexivity. }
    rewrite Hsettle. clear Hsettle. cbn [session_step hook].
    rewrite (hashEffect_new_handle_eq publicClient s2 h);
      [|reflexivity|cbn; unfold len; lia|reflexivity|exact Hh].
    cbv zeta. unfold s2, ready, commit.
    cbn [hook queue currentIndex isTransferring transferParams
         lastExecutedIndexRef isExecutingRef completedTransfers
         processedHashesRef write].
    rewrite queue_at_nth, Hnth.
    assert (Hset : forall h0, h0 ∈ {[h]} ∪ ph <-> In h0 [h] \/ h0 ∈ ph).
    { intros h0. rewrite elem_of_union, elem_of_singleton. cbn.
      intuition congruence. }
    destruct (Z.of_nat k + 1 <? len q) eqn:E; zbool;
      cbn [fst snd hook calls timers watchers queue currentIndex
           isTransferring transferParams lastExecutedIndexRef isExecutingRef
           completedTransfers processedHashesRef write set_write
           setCurrentIndex setCompletedTransfers set_isExecutingRef
           set_processedHashesRef record_of handle_of attempts];
      destruct publicClient;
      cbn [watchers_of timers_of writes_of flat_map app repeat Nat.sub];
      unfold writes_of; rewrite ?flat_map_app; cbn [flat_map app];
      rewrite ?app_nil_r;
      (repeat split; try reflexivity; try lia; try apply Hset;
       try (intros Hlt; unfold len in E; lia)).
  - (* the signer refuses, the user skips *)
    unfold session_run. cbn [fold_left].
    set (s2 := mkHook q (Z.of_nat k) true recs (Some tp) ph (Z.of_nat k) true
                      (mkWrite None false (Some e))).
    assert (Hsettle :
      session_step publicClient (SignerRejects e)
        (mkWorld (mkHook q (Z.of_nat k) true recs (Some tp) ph (Z.of_nat k)
                         true write_pending) cl [] wt)
      = mkWorld s2 cl [] wt).
    { unfold session_step, commit, signerSettles, s2. cbn.
      rewrite !app_nil_r. reflexivity. }
    rewrite Hsettle. clear Hsettle. cbn [session_step hook].
    unfold skip, s2, ready, commit.
    cbn [isTransferring write error defined negb orb queue currentIndex].
    rewrite queue_at_nth, Hnth.
    destruct (Z.of_nat k + 1 <? len q) eqn:E; zbool;
      cbn [fst snd hook calls timers watchers queue currentIndex
           isTransferring transferParams lastExecutedIndexRef isExecutingRef
           completedTransfers processedHashesRef write set_write resetWrite
           setCurrentIndex setCompletedTransfers set_isExecutingRef
           set_lastExecutedIndexRef record_of handle_of attempts
           watchers_of timers_of flat_map app repeat Nat.sub];
      destruct publicClient;
      unfold writes_of; rewrite ?flat_map_app; cbn [flat_map app];
      rewrite ?app_nil_r;
      (repeat split; try reflexivity; try lia;
       try (intros Hlt; unfold len in E; lia);
       try (cbn; tauto)).
  - (* the signer refuses, the user retries *)
    unfold session_run. rewrite fold_left_app. cbn [fold_left].
    set (r := mkRender (Some tp) (Z.of_nat k) q).
    assert (Hretry :
      session_step publicClient (TimerFires 0)
        (session_step publicClient CallRetry
           (session_step publicClient (SignerRejects e)
              (mkWorld (mkHook q (Z.of_nat k) true recs (Some tp) ph
                               (Z.of_nat k) true write_pending) cl [] wt)))
      = mkWorld (mkHook q (Z.of_nat k) true recs (Some tp) ph (Z.of_nat k)
                        true write_pending)
                (cl ++ [ResetWrite; SetTimeout 100 r;
                        WriteContract (contractAddress tp) (from tp) (to tp)
                                      (Some t)])
                [] wt).
    { set (s2 := mkHook q (Z.of_nat k) true recs (Some tp) ph (Z.of_nat k)
                        true (mkWrite None false (Some e))).
      set (s3 := mkHook q (Z.of_nat k) true recs (Some tp) ph (-1) false
                        write_idle).
      assert (H1 :
        session_step publicClient (SignerRejects e)
          (mkWorld (mkHook q (Z.of_nat k) true recs (Some tp) ph (Z.of_nat k)
                           true write_pending) cl [] wt)
        = mkWorld s2 cl [] wt).
      { unfold session_step, commit, signerSettles, s2. cbn.
        rewrite !app_nil_r. reflexivity. }
      assert (H2 :
        session_step publicClient CallRetry (mkWorld s2 cl [] wt)
        = mkWorld s3 (cl ++ [ResetWrite; SetTimeout 100 r]) [r] wt).
      { unfold session_step, commit, retry, s2, s3, r. cbn.
        rewrite !app_nil_r. reflexivity. }
      rewrite H1, H2. cbn [session_step timers nth_error hook].
      change r with (render s3).
      rewrite (executeCurrentTransfer_fires s3 tp); try reflexivity;
        [|cbn; unfold len; lia|cbn; lia].
      unfold commit, s3.
      cbn [fst snd hook calls timers watchers timers_of watchers_of flat_map
           app remove_nth firstn skipn currentIndex queue render
           transferParams set_write set_isExecutingRef
           set_lastExecutedIndexRef].
      rewrite queue_at_nth, Hnth, <- app_assoc, !app_nil_r. reflexivity. }
    fold (session_run publicClient (answer o)).
    rewrite Hretry. clear Hretry.
    specialize (IH recs ph
                  (cl ++ [ResetWrite; SetTimeout 100 r;
                          WriteContract (contractAddress tp) (from tp)
                                        (to tp) (Some t)])
                  wt Hnth Hnew).
    cbv zeta in IH. destruct IH as (Hr & Hrec & Hph & Hwr & Hwt).
    split; [exact Hr|]. split; [exact Hrec|]. split; [exact Hph|].
    split; [|exact Hwt].
    etransitivity; [exact Hwr|]. unfold writes_of. rewrite flat_map_app.
    cbn [flat_map app attempts Nat.sub].
    rewrite <- app_assoc. f_equal.
    assert (Ha : forall o0, (1 <= attempts o0)%nat) by (destruct o0; cbn; lia).
    specialize (Ha o).
    destruct (attempts o) as [|n]; [lia|].
    cbn [Nat.sub app repeat]. rewrite Nat.sub_0_r. reflexivity.
Qed.

Lemma skipn_nth_error {A} (l : list A) (k : nat) (x : A) :
  nth_error l k = Some x -> skipn k l = x :: skipn (S k) l.
Proof.
  revert k. induction l as [|y l IH]; intros [|k] H; try discriminate.
  - injection H as ->. reflexivity.
  - cbn in H. rewrite skipn_cons. rewrite (IH k H). reflexivity.
Qed.

Lemma attempts_pos (o : Outcome) : attempts o = S (attempts o - 1).
Proof. destruct o; cbn; lia. Qed.

(** A batch that is ready for position [k] goes through the positions
    [k], [k+1], ... whatever way each request ends. *)
Lemma batch_run publicClient q tp :
  forall os k w,
    ready q tp k w ->
    NoDup (flat_map handle_of os) ->
    (forall h, In h (flat_map handle_of os) ->
               h ∉ processedHashesRef (hook w)) ->
    (k + length os <= length q)%nat ->
    let w' := session_run publicClient (batch_events k os) w in
    ready q tp (k + length os) w'
    /\ completedTransfers (hook w')
       = completedTransfers (hook w) ++ zip_with record_of (skipn k q) os
    /\ writes_of (calls w')
       = writes_of (calls w)
         ++ concat (zip_with (fun t o => repeat (transfer_call tp t) (attempts o))
                             (skipn k q) os)
    /\ watchers w'
       = watchers w ++ (if publicClient then flat_map handle_of os else [])
    /\ (forall h, h ∈ processedHashesRef (hook w')
                  <-> In h (flat_map handle_of os)
                      \/ h ∈ processedHashesRef (hook w)).
Proof.
  induction os as [|o os IH]; intros k w Hready Hnd Hnew Hlen; cbv zeta.
  - cbn [batch_events session_run fold_left length zip_with flat_map concat].
    rewrite Nat.add_0_r.
    assert (Hz : forall {A B C} (f : A -> B -> C) l, zip_with f l [] = [])
      by (intros A B C f []; reflexivity).
    rewrite !Hz. cbn [concat]. rewrite !app_nil_r.
    split; [exact Hready|]. split; [reflexivity|]. split; [reflexivity|].
    split; [destruct publicClient; rewrite app_nil_r; reflexivity|].
    intros h. cbn. tauto.
  - cbn [length] in Hlen.
    destruct (nth_error q k) as [t|] eqn:Hnth;
      [|apply nth_error_None in Hnth; lia].
    cbn [flat_map] in Hnd, Hnew.
    apply NoDup_app in Hnd as (Hnd1 & Hdisj & Hnd2).
    pose proof Hready as (Hq & Hi & Ht & Htp & Hle & Hie & Hwr & Htm).
    assert (Hk : (k < length q)%nat) by lia.
    specialize (Hwr Hk).
    destruct w as [[q0 i0 tr0 recs tp0 ph le ie wr] cl tm wt].
    cbn in Hq, Hi, Ht, Htp, Hle, Hie, Hwr, Htm, Hnew. subst.
    destruct (dispatch_run publicClient q tp k t recs ph le cl wt Hle Hnth)
      as (cl1 & Hrun1 & Hw1).
    cbn [batch_events]. unfold session_run. rewrite !fold_left_app.
    fold (session_run publicClient (dispatch k)
            (mkWorld (mkHook q (Z.of_nat k) true recs (Some tp) ph le false
                             write_idle) cl [] wt)).
    rewrite Hrun1.
    set (w1 := mkWorld (mkHook q (Z.of_nat k) true recs (Some tp) ph
                               (Z.of_nat k) true write_pending)
                       (cl ++ cl1) [] wt).
    fold (session_run publicClient (answer o) w1).
    assert (Hnew_o : forall h, In h (handle_of o) -> h ∉ ph).
    { intros h Hh. apply Hnew, in_app_iff. left. exact Hh. }
    destruct (answer_run publicClient q tp k t o recs ph (cl ++ cl1) wt
                Hnth Hnew_o) as (Hr2 & Hrec2 & Hph2 & Hwr2 & Hwt2).
    fold w1 in Hr2, Hrec2, Hph2, Hwr2, Hwt2.
    set (w2 := session_run publicClient (answer o) w1) in *.
    fold (session_run publicClient (batch_events (S k) os) w2).
    assert (Hnew2 : forall h, In h (flat_map handle_of os) ->
                              h ∉ processedHashesRef (hook w2)).
    { intros h Hh Hin. apply Hph2 in Hin as [Hin | Hin].
      - apply (Hdisj h); apply list_elem_of_In; assumption.
      - revert Hin. apply Hnew, in_app_iff. right. exact Hh. }
    destruct (IH (S k) w2 Hr2 Hnd2 Hnew2 ltac:(lia))
      as (Hr3 & Hrec3 & Hwr3 & Hwt3 & Hph3).
    cbn [length]. rewrite Nat.add_succ_r.
    split; [exact Hr3|].
    rewrite (skipn_nth_error q k t Hnth). cbn [zip_with concat].
    split; [rewrite Hrec3, Hrec2, <- app_assoc; reflexivity|].
    split.
    { rewrite Hwr3, Hwr2. unfold writes_of at 1. rewrite flat_map_app.
      fold (writes_of cl). fold (writes_of cl1). rewrite Hw1.
      rewrite (attempts_pos o) at 2. cbn [repeat app hook calls].
      rewrite <- !app_assoc. reflexivity. }
    split.
    { rewrite Hwt3, Hwt2. cbn [watchers flat_map].
      destruct publicClient; rewrite <- ?app_assoc, ?app_nil_r; reflexivity. }
    intros h. rewrite Hph3, Hph2. cbn [hook processedHashesRef flat_map].
    rewrite in_app_iff. tauto.
Qed.

(** X1.  A batch started on an idle signer runs to the end of the queue
    whatever way each request ends (a handle, a refusal that is skipped, or
    refusals that are retried until one of the two): the cursor reaches
    [queue.length], there is one record per token, in queue order, pending
    under its handle or failed under ["0x"], the signer was asked for
    [safeTransferFrom(from, to, token)] once per attempt and in queue
    order, and one receipt watch per handle was started if there is a
    client. *)
Theorem batch_runs_to_the_end publicClient params from_ os w0 :
  write (hook w0) = write_idle ->
  timers w0 = [] ->
  tokenIds params <> [] ->
  length os = length (tokenIds params) ->
  NoDup (flat_map handle_of os) ->
  let q := tokenIds params in
  let tp := mkTransferParams (p_contractAddress params) (p_to params) from_ in
  let w' :=
    session_run publicClient (batch_events 0 os)
                (step publicClient (CallStartTransfer params from_) w0) in
  currentIndex (hook w') = len q
  /\ completedTransfers (hook w') = zip_with record_of q os
  /\ writes_of (calls w')
     = writes_of (calls w0)
       ++ concat (zip_with (fun t o => repeat (transfer_call tp t) (attempts o))
                           q os)
  /\ watchers w'
     = watchers w0 ++ (if publicClient then flat_map handle_of os else [])
  /\ allTransfersSubmitted (hook w') = true
  /\ isTransferring (hook w') = true.
Proof.
  intros Hidle Htm Hne Hlen Hnd q tp. cbv zeta.
  set (w1 := step publicClient (CallStartTransfer params from_) w0).
  assert (Hhook : hook w1
                  = mkHook q 0 true [] (Some tp) ∅ (-1) false write_idle).
  { unfold w1. cbn [step commit hook].
    rewrite (startTransfer_installs params from_ (hook w0) Hne).
    cbn [fst]. rewrite Hidle. reflexivity. }
  assert (Hrest : calls w1 = calls w0 /\ timers w1 = []
                  /\ watchers w1 = watchers w0).
  { unfold w1. cbn [step commit calls timers watchers].
    rewrite (startTransfer_installs params from_ (hook w0) Hne).
    cbn [snd timers_of watchers_of flat_map]. rewrite !app_nil_r.
    auto. }
  destruct Hrest as (Hcalls & Htimers & Hwatchers).
  assert (Hready : ready q tp 0 w1).
  { unfold ready. rewrite Hhook. cbn. repeat split; try lia. exact Htimers. }
  assert (Hnew : forall h, In h (flat_map handle_of os) ->
                           h ∉ processedHashesRef (hook w1)).
  { intros h _. rewrite Hhook. cbn. apply not_elem_of_empty. }
  assert (Hfit : (0 + length os <= length q)%nat)
    by (unfold q; rewrite Hlen; reflexivity).
  destruct (batch_run publicClient q tp os 0%nat w1 Hready Hnd Hnew Hfit)
    as ((Hq' & Hi' & Ht' & _) & Hrec & Hwr & Hwt & _).
  cbn [skipn Nat.add] in Hi', Hrec, Hwr.
  rewrite Hhook in Hrec. cbn [completedTransfers app] in Hrec.
  rewrite Hcalls in Hwr. rewrite Hwatchers in Hwt.
  split; [rewrite Hi', Hlen; reflexivity|].
  split; [exact Hrec|]. split; [exact Hwr|]. split; [exact Hwt|].
  split; [|exact Ht'].
  unfold allTransfersSubmitted, totalCount. rewrite Hq', Hi', Hlen.
  fold (len q).
  assert (0 < len q) by (unfold len, q; destruct (tokenIds params);
                         [contradiction|cbn; lia]).
  apply andb_true_intro. split.
  - apply Z.geb_le. unfold len, q in *. lia.
  - rewrite Z.gtb_ltb. apply Z.ltb_lt. assumption.
Qed.

Lemma batch_runs_to_the_end_witness :
  completedTransfers
    (hook (session_run true
             (batch_events 0 [Signed h1;
                              Retried "rejected" (Skipped "rejected")])
             (step true (CallStartTransfer params_12 alice) mounted)))
  = [mkTransferResult (Some 1) h1 pending;
     mkTransferResult (Some 2) hash_0x failed].
Proof.
  assert (Hnd : NoDup (flat_map handle_of
                         [Signed h1; Retried "rejected" (Skipped "rejected")])).
  { cbn. apply NoDup_singleton. }
  destruct (batch_runs_to_the_end true params_12 alice
              [Signed h1; Retried "rejected" (Skipped "rejected")] mounted
              eq_refl eq_refl ltac:(discriminate) eq_refl Hnd)
    as (_ & Hrec & _).
  exact Hrec.
Defined.

(** ** Receipts *)

Lemma receipt_records (c : Hash * bool) (s : Hook) :
  receipt c s = setCompletedTransfers (map (mark c)) s.
Proof. destruct c as [h []]; reflexivity. Qed.

Lemma receipts_records (cs : list (Hash * bool)) (s : Hook) :
  receipts cs s = setCompletedTransfers (map (marks cs)) s.
Proof.
  revert s. induction cs as [|c cs IH]; intros s.
  - destruct s. unfold receipts, setCompletedTransfers, marks. cbn.
    rewrite map_id. reflexivity.
  - change (receipts (c :: cs) s) with (receipts cs (receipt c s)).
    rewrite IH, receipt_records. destruct s.
    unfold setCompletedTransfers. cbn. rewrite map_map. reflexivity.
Qed.

Lemma marks_fields cs t :
  tokenId (marks cs t) = tokenId t /\ hash (marks cs t) = hash t.
Proof.
  revert t. induction cs as [|c cs IH]; intros t; [split; reflexivity|].
  change (marks (c :: cs) t) with (marks cs (mark c t)).
  destruct (IH (mark c t)) as [-> ->]. unfold mark.
  destruct (decide _); split; reflexivity.
Qed.

Lemma marks_pending cs t :
  status (marks cs t) = pending
  <-> status t = pending /\ ~ In (hash t) (map fst cs).
Proof.
  revert t. induction cs as [|c cs IH]; intros t.
  - cbn. tauto.
  - change (marks (c :: cs) t) with (marks cs (mark c t)).
    rewrite IH. unfold mark. cbn [map In].
    destruct (decide (hash t = fst c)) as [E|E]; cbn [status hash].
    + split.
      * intros [H _]. destruct (snd c); discriminate.
      * intros [_ H]. exfalso. apply H. left. congruence.
    + split.
      * intros [H1 H2]. split; [exact H1|]. intros [H|H]; [congruence|auto].
      * intros [H1 H2]. split; [exact H1|]. tauto.
Qed.

(** X2.  Once the batch has a record for every token, receipt callbacks
    complete it exactly when every pending record's handle got one:
    [isComplete] is then true and the completion effect ends the transfer;
    while a pending record's watch has not reported, [isComplete] stays
    false and the effect changes nothing.  Callbacks never change the token
    id, the handle or the position of a record, nor the queue or the
    cursor. *)
Theorem receipts_complete_the_batch (cs : list (Hash * bool)) (s : Hook) :
  len (completedTransfers s) = totalCount s ->
  totalCount s > 0 ->
  let s' := receipts cs s in
  (isComplete s' = true
   <-> forall r, In r (completedTransfers s) -> status r = pending ->
                 In (hash r) (map fst cs))
  /\ (isComplete s' = true -> isTransferring s = true ->
      checkDone s' = (setIsTransferring false s', [])
      /\ isComplete (fst (checkDone s')) = true)
  /\ (isComplete s' = false -> checkDone s' = (s', []))
  /\ map tokenId (completedTransfers s') = map tokenId (completedTransfers s)
  /\ map hash (completedTransfers s') = map hash (completedTransfers s)
  /\ queue s' = queue s
  /\ currentIndex s' = currentIndex s.
Proof.
  intros Hlen Hpos s'.
  assert (Hrec : completedTransfers s'
                 = map (marks cs) (completedTransfers s)).
  { unfold s'. rewrite receipts_records. reflexivity. }
  assert (Hsame : queue s' = queue s /\ currentIndex s' = currentIndex s
                  /\ isTransferring s' = isTransferring s).
  { unfold s'. rewrite receipts_records. repeat split. }
  destruct Hsame as (Hq & Hi & Ht).
  assert (Hiff : isComplete s' = true
                 <-> forall r, In r (completedTransfers s) ->
                               status r = pending ->
                               In (hash r) (map fst cs)).
  { unfold isComplete.
    rewrite (proj2 (proj2 (proj2 (proj2 (proj2
               (derived_views_match_spec s')))))).
    unfold totalCount. rewrite Hq, Hrec. unfold len. rewrite length_map.
    rewrite List.Forall_forall. split.
    - intros (_ & _ & Hall) r Hr Hp.
      destruct (in_dec Hash_eq_dec (hash r) (map fst cs)) as [Hin|Hout];
        [exact Hin|].
      exfalso. apply (Hall (marks cs r)).
      + apply in_map. exact Hr.
      + apply marks_pending. split; assumption.
    - intros Hall. split; [exact Hlen|]. split; [exact Hpos|].
      intros r' Hr' Hp. apply in_map_iff in Hr' as (r & <- & Hr).
      apply marks_pending in Hp as [Hp Hout]. apply Hout, (Hall r Hr Hp). }
  split; [exact Hiff|].
  split; [|split; [|split; [|split; [|split; [exact Hq | exact Hi]]]]].
  - intros Hc Htr. unfold checkDone. unfold isComplete in Hc.
    rewrite Hc, Ht, Htr. cbn [andb fst]. split; [reflexivity|].
    unfold isComplete, allTransfersConfirmed, totalCount in *.
    destruct s'; exact Hc.
  - intros Hc. unfold checkDone. unfold isComplete in Hc. rewrite Hc.
    reflexivity.
  - rewrite Hrec, map_map. apply map_ext. intros t.
    apply (marks_fields cs t).
  - rewrite Hrec, map_map. apply map_ext. intros t.
    apply (marks_fields cs t).
Qed.

Lemma receipts_complete_the_batch_witness :
  isComplete (receipts [(h1, true)] batch_failed) = true
  /\ map hash (completedTransfers (receipts [(h1, true)] batch_failed))
     = [h1].
Proof.
  destruct (receipts_complete_the_batch [(h1, true)] batch_failed
              eq_refl eq_refl) as (Hiff & _ & _ & _ & Hhash & _).
  split; [|exact Hhash].
  apply Hiff. intros r [<- | []]. discriminate.
Defined.

(** Two callbacks for different handles commute. *)
Lemma mark_commute (c1 c2 : Hash * bool) (t : TransferResult) :
  fst c1 <> fst c2 -> mark c1 (mark c2 t) = mark c2 (mark c1 t).
Proof.
  intros Hne. unfold mark.
  destruct (decide (hash t = fst c2)) as [E2|E2];
    destruct (decide (hash t = fst c1)) as [E1|E1]; cbn [hash];
    repeat (destruct (decide _)); try congruence.
Qed.

(** X3.  The order in which the receipts of different handles arrive does
    not matter: callbacks for pairwise different handles, applied in any two
    orders, leave the hook in the same state. *)
Theorem receipts_order_irrelevant (cs cs' : list (Hash * bool)) (s : Hook) :
  NoDup (map fst cs) -> Permutation cs cs' ->
  receipts cs s = receipts cs' s.
Proof.
  intros Hnd Hperm. revert s Hnd.
  induction Hperm as [|c l l' Hp IH|c1 c2 l|l l' l'' Hp1 IH1 Hp2 IH2];
    intros s Hnd.
  - reflexivity.
  - change (receipts l (receipt c s) = receipts l' (receipt c s)).
    apply IH. cbn in Hnd. apply NoDup_cons in Hnd as [_ Hnd]. exact Hnd.
  - change (receipts l (receipt c1 (receipt c2 s))
            = receipts l (receipt c2 (receipt c1 s))).
    f_equal. cbn in Hnd. apply NoDup_cons in Hnd as [Hne _].
    assert (Hneq : fst c1 <> fst c2).
    { intros E. apply Hne. rewrite E. left. }
    rewrite !receipt_records. destruct s. unfold setCompletedTransfers. cbn.
    rewrite !map_map. f_equal. apply map_ext. intros t.
    apply mark_commute. exact Hneq.
  - rewrite (IH1 s Hnd). apply IH2.
    apply (proj1 (NoDup_Permutation_proper _ _ (Permutation_map fst Hp1))).
    exact Hnd.
Qed.

Lemma receipts_order_irrelevant_witness :
  receipts [(h1, true); (h2, false)] batch_hash_arrived
  = receipts [(h2, false); (h1, true)] batch_hash_arrived.
Proof.
  apply receipts_order_irrelevant.
  - cbn. apply NoDup_cons. split; [|apply NoDup_singleton].
    rewrite list_elem_of_singleton. discriminate.
  - apply perm_swap.
Defined.

(** X4.  Receipt callbacks never add to the pending confirmations: after
    any callbacks the pending records are those that were pending and whose
    handle got none, so [pendingConfirmations] does not grow, and a record
    that is [success] or [failed] never becomes [pending] again. *)
Theorem receipts_only_settle (cs : list (Hash * bool)) (s : Hook) :
  let s' := receipts cs s in
  pendingConfirmations s' <= pendingConfirmations s
  /\ (forall n r,
        nth_error (completedTransfers s) n = Some r ->
        exists r',
          nth_error (completedTransfers s') n = Some r'
          /\ (status r' = pending
              <-> status r = pending /\ ~ In (hash r) (map fst cs))).
Proof.
  intros s'.
  assert (Hrec : completedTransfers s'
                 = map (marks cs) (completedTransfers s)).
  { unfold s'. rewrite receipts_records. reflexivity. }
  split.
  - unfold pendingConfirmations. rewrite Hrec, !pending_filter_count.
    clear Hrec.
    induction (completedTransfers s) as [|r l IH]; [reflexivity|].
    cbn [map spec_pendingCount].
    pose proof (marks_pending cs r) as [Hp _].
    destruct (status (marks cs r)) eqn:E1; destruct (status r) eqn:E2;
      try lia; destruct (Hp eq_refl); discriminate.
  - intros n r Hn. exists (marks cs r). rewrite Hrec, nth_error_map, Hn.
    split; [reflexivity | apply marks_pending].
Qed.

Lemma receipts_only_settle_witness :
  exists r',
    nth_error (completedTransfers (receipts [(h2, true)] batch_hash_arrived)) 0
    = Some r'
    /\ status r' = pending.
Proof.
  destruct (receipts_only_settle [(h2, true)] batch_hash_arrived)
    as (_ & Hrec).
  destruct (Hrec 0%nat (mkTransferResult (Some 1) h1 pending) eq_refl)
    as (r' & Hn & Hp).
  exists r'. split; [exact Hn|]. apply Hp. split; [reflexivity|].
  intros [H | []]. discriminate.
Defined.

(** ** The mounted hook *)

Lemma mounted_follows_cursor : records_follow_cursor (hook mounted).
Proof.
  unfold records_follow_cursor. cbn. split; [lia|]. split; [reflexivity|].
  intros [|n] r Hn; discriminate.
Qed.

(** ** No two requests at once *)

Lemma writes_of_app es1 es2 :
  writes_of (es1 ++ es2) = writes_of es1 ++ writes_of es2.
Proof. apply flat_map_app. Qed.

Lemma asks_when_free_quiet s r :
  write (fst r) = write s \/ isPending (write (fst r)) = false ->
  (isPending (write (fst r)) = true -> isExecutingRef (fst r) = isExecutingRef s) ->
  writes_of (snd r) = [] ->
  asks_when_free s r.
Proof.
  intros Hw Hie Hnone Hs. split; [|left; exact Hnone].
  intros Hp. destruct Hw as [Hw|Hw]; [|congruence].
  rewrite Hw in *. rewrite (Hie Hp). apply Hs, Hp.
Qed.

Lemma executeCurrentTransfer_of_asks_when_free r s :
  asks_when_free s (executeCurrentTransfer_of r s).
Proof.
  unfold executeCurrentTransfer_of.
  destruct (r_transferParams r) as [tp|];
    [|apply asks_when_free_quiet; auto].
  destruct (_ >=? _); [apply asks_when_free_quiet; auto|].
  destruct (_ =? _); [apply asks_when_free_quiet; auto|].
  destruct (isExecutingRef s) eqn:Hie; [apply asks_when_free_quiet; auto|].
  intros Hs. split.
  - intros _. cbn. auto.
  - right. eexists. split; [reflexivity|].
    split; [|split; [exact Hie|split; reflexivity]].
    destruct (isPending (write s)) eqn:Hp; [|reflexivity].
    destruct (Hs Hp) as (_ & _ & H). congruence.
Qed.

Lemma hashEffect_asks_when_free publicClient s :
  asks_when_free s (hashEffect publicClient s).
Proof.
  intros Hs.
  assert (Hw : writes_of (snd (hashEffect publicClient s)) = []).
  { unfold hashEffect. destruct (data (write s)); [|reflexivity].
    destruct (_ || _); [reflexivity|].
    destruct (decide _); [reflexivity|]. cbv zeta.
    destruct (_ <? _), publicClient; reflexivity. }
  split; [|left; exact Hw].
  unfold hashEffect. destruct (data (write s)) as [h|] eqn:Hd; [|exact Hs].
  destruct (_ || _); [exact Hs|].
  destruct (decide _); [exact Hs|]. cbv zeta.
  assert (Hnp : isPending (write s) = false).
  { destruct (isPending (write s)) eqn:Hp; [|reflexivity].
    destruct (Hs Hp) as (H & _). congruence. }
  destruct (_ <? _); intros Hp; cbn in Hp; congruence.
Qed.

Lemma skip_asks_when_free s : asks_when_free s (skip s).
Proof.
  intros Hs.
  assert (Hw : writes_of (snd (skip s)) = []).
  { unfold skip. destruct (_ || _); [reflexivity|]. cbv zeta.
    destruct (_ <? _); reflexivity. }
  split; [|left; exact Hw].
  unfold skip.
  destruct (negb (isTransferring s) || negb (defined (error (write s))))
    eqn:Hg; [exact Hs|].
  apply orb_false_elim in Hg as [_ He]. apply negb_false_iff in He.
  assert (Hnp : isPending (write s) = false).
  { destruct (isPending (write s)) eqn:Hp; [|reflexivity].
    destruct (Hs Hp) as (_ & H & _). rewrite H in He. discriminate. }
  cbv zeta. destruct (_ <? _); intros Hp; cbn in Hp; congruence.
Qed.

Lemma retry_asks_when_free s : asks_when_free s (retry s).
Proof.
  unfold retry. destruct (_ || _); [apply asks_when_free_quiet; auto|].
  intros Hs. split; [|left; reflexivity].
  intros Hp. cbn in Hp. discriminate.
Qed.

Lemma session_step_asks_when_free publicClient e w :
  exists r,
    hook (session_step publicClient e w) = fst r
    /\ calls (session_step publicClient e w) = calls w ++ snd r
    /\ asks_when_free (hook w) r.
Proof.
  assert (Hidle : exists r,
            hook w = fst r /\ calls w = calls w ++ snd r
            /\ asks_when_free (hook w) r).
  { exists (hook w, []). cbn. rewrite app_nil_r.
    split; [reflexivity|]. split; [reflexivity|].
    apply asks_when_free_quiet; auto. }
  destruct e; cbn [session_step].
  - eexists; split; [reflexivity|]; split; [reflexivity|].
    unfold autoExecuteFirst.
    destruct (_ && _); [apply executeCurrentTransfer_of_asks_when_free|].
    apply asks_when_free_quiet; auto.
  - eexists; split; [reflexivity|]; split; [reflexivity|].
    apply hashEffect_asks_when_free.
  - eexists; split; [reflexivity|]; split; [reflexivity|].
    unfold autoExecuteNext.
    destruct (_ || _ || _); [apply asks_when_free_quiet; auto|].
    destruct (_ || _); [apply asks_when_free_quiet; auto|].
    destruct (_ =? _); apply asks_when_free_quiet; auto.
  - eexists; split; [reflexivity|]; split; [reflexivity|].
    unfold checkDone.
    destruct (_ && _); apply asks_when_free_quiet; auto.
  - destruct (nth_error (timers w) n) as [r|]; [|exact Hidle].
    exists (executeCurrentTransfer_of r (hook w)).
    split; [reflexivity|]. split; [reflexivity|].
    apply executeCurrentTransfer_of_asks_when_free.
  - eexists; split; [reflexivity|]; split; [reflexivity|].
    unfold signerSettles.
    destruct (isPending _); apply asks_when_free_quiet; auto.
  - eexists; split; [reflexivity|]; split; [reflexivity|].
    unfold signerSettles.
    destruct (isPending _); apply asks_when_free_quiet; auto.
  - destruct (nth_error (watchers w) n) as [h'|]; [|exact Hidle].
    exists (receiptThen h' (hook w)).
    split; [reflexivity|]. split; [reflexivity|].
    apply asks_when_free_quiet; auto.
  - destruct (nth_error (watchers w) n) as [h'|]; [|exact Hidle].
    exists (receiptCatch h' (hook w)).
    split; [reflexivity|]. split; [reflexivity|].
    apply asks_when_free_quiet; auto.
  - eexists; split; [reflexivity|]; split; [reflexivity|].
    apply skip_asks_when_free.
  - eexists; split; [reflexivity|]; split; [reflexivity|].
    apply retry_asks_when_free.
Qed.

Lemma session_run_signer_consistent publicClient es :
  forall w,
    signer_consistent (hook w) ->
    signer_consistent (hook (session_run publicClient es w)).
Proof.
  induction es as [|e es IH]; intros w Hw; [exact Hw|].
  rewrite session_run_cons. apply IH.
  destruct (session_step_asks_when_free publicClient e w)
    as (r & Hh & _ & Hr).
  rewrite Hh. apply Hr, Hw.
Qed.



(** ** What [startTransfer] and [reset] leave behind *)

(** X8.  [startTransfer] does not reset the signer.  If the signer still
    shows the handle of an earlier request when a batch is started, the
    auto-execute effect sends nothing, and the hash-arrival effect takes
    that handle for the first token of the new batch: it appends the
    pending record, advances the cursor to 1 and watches the handle, though
    the signer was never asked for this token. *)
Theorem startTransfer_keeps_signer_handle
    publicClient params from_ (s : Hook) (h : Hash) (t : Z) (rest : list Z) :
  tokenIds params = t :: rest ->
  data (write s) = Some h ->
  let s1 := fst (startTransfer params from_ s) in
  write s1 = write s
  /\ autoExecuteFirst s1 = (s1, [])
  /\ autoExecuteNext s1 = (s1, [])
  /\ completedTransfers (fst (hashEffect publicClient s1))
     = [mkTransferResult (Some t) h pending]
  /\ currentIndex (fst (hashEffect publicClient s1)) = 1
  /\ writes_of (snd (hashEffect publicClient s1)) = []
  /\ watchers_of (snd (hashEffect publicClient s1))
     = (if publicClient then [h] else []).
Proof.
  intros Hq Hd s1.
  assert (Hs1 : s1 = mkHook (t :: rest) 0 true []
                       (Some (mkTransferParams (p_contractAddress params)
                                               (p_to params) from_))
                       ∅ (-1) false (write s)).
  { unfold s1. rewrite startTransfer_installs by (rewrite Hq; discriminate).
    rewrite Hq. reflexivity. }
  assert (Hnew : h ∉ processedHashesRef s1)
    by (rewrite Hs1; apply not_elem_of_empty).
  assert (Hlen : currentIndex s1 < len (queue s1)).
  { rewrite Hs1. unfold len. cbn. lia. }
  assert (Hd1 : data (write s1) = Some h) by (rewrite Hs1; exact Hd).
  split; [rewrite Hs1; reflexivity|].
  split.
  { unfold autoExecuteFirst. rewrite Hd1. cbn [defined negb].
    rewrite andb_false_r. reflexivity. }
  split.
  { unfold autoExecuteNext. rewrite Hs1. reflexivity. }
  rewrite (hashEffect_new_handle_eq publicClient s1 h);
    [|rewrite Hs1; reflexivity|exact Hlen|exact Hd1|exact Hnew].
  cbv zeta. rewrite Hs1.
  cbn [currentIndex queue completedTransfers set_processedHashesRef
       set_isExecutingRef setCompletedTransfers setCurrentIndex app].
  destruct (0 + 1 <? len (t :: rest)), publicClient; cbn; repeat split.
Qed.

Lemma startTransfer_keeps_signer_handle_witness :
  completedTransfers
    (fst (hashEffect true (fst (startTransfer params_12 alice batch_done))))
  = [mkTransferResult (Some 1) h1 pending].
Proof.
  destruct (startTransfer_keeps_signer_handle true params_12 alice batch_done
              h1 1 [2] eq_refl eq_refl) as (_ & _ & _ & Hrec & _).
  exact Hrec.
Defined.

(** X9.  [reset] does not cancel the timer of [retry].  When that timer
    fires after a [reset], [executeCurrentTransfer] of the old render finds
    its captured session and position intact and both guards cleared, and
    asks the signer to transfer the old token, leaving a request in flight
    on a hook whose queue is empty. *)
Theorem retry_timer_survives_reset publicClient (w : World)
    (tp : TransferParams) (t : Z) :
  timers w = [] ->
  isTransferring (hook w) = true ->
  error (write (hook w)) <> None ->
  transferParams (hook w) = Some tp ->
  0 <= currentIndex (hook w) ->
  queue_at (queue (hook w)) (currentIndex (hook w)) = Some t ->
  let w' := run publicClient
                [InSession CallRetry; CallReset; InSession (TimerFires 0)]
                w in
  writes_of (calls w') = writes_of (calls w) ++ [transfer_call tp t]
  /\ queue (hook w') = []
  /\ transferParams (hook w') = None
  /\ isTransferring (hook w') = false
  /\ isExecutingRef (hook w') = true
  /\ lastExecutedIndexRef (hook w') = currentIndex (hook w)
  /\ write (hook w') = write_pending
  /\ timers w' = [].
Proof.
  intros Htm Ht He Htp Hpos Hqa.
  destruct w as [[q i tr recs tp0 ph le ie [d pe er]] cl tm wt].
  cbn in Htm, Ht, He, Htp, Hpos, Hqa. subst.
  destruct er as [e|]; [|contradiction].
  assert (Hlt : i < len q).
  { unfold queue_at in Hqa. destruct (i <? 0); [discriminate|].
    assert (Z.to_nat i < length q)%nat
      by (apply nth_error_Some; congruence).
    unfold len. lia. }
  set (r := mkRender (Some tp) i q).
  set (w0 := mkWorld (mkHook q i true recs (Some tp) ph le ie
                             (mkWrite d pe (Some e))) cl [] wt).
  assert (H1 :
    session_step publicClient CallRetry w0
    = mkWorld (mkHook q i true recs (Some tp) ph (-1) false write_idle)
              (cl ++ [ResetWrite; SetTimeout 100 r]) [r] wt).
  { unfold w0, session_step, commit, retry, r. cbn.
    rewrite !app_nil_r. reflexivity. }
  assert (H2 : forall s0 cl0,
    step publicClient CallReset (mkWorld s0 cl0 [r] wt)
    = mkWorld initial (cl0 ++ [ResetWrite]) [r] wt).
  { intros s0 cl0. unfold step, commit. cbn. rewrite !app_nil_r.
    reflexivity. }
  assert (H3 : executeCurrentTransfer_of r initial
               = (set_write write_pending
                    (set_isExecutingRef true
                       (set_lastExecutedIndexRef i initial)),
                  [transfer_call tp t])).
  { unfold executeCurrentTransfer_of, r.
    cbn [r_transferParams r_currentIndex r_queue].
    destruct (i >=? len q) eqn:E1; zbool; [lia|].
    cbn [lastExecutedIndexRef isExecutingRef initial].
    destruct (-1 =? i) eqn:E2; zbool; [lia|].
    rewrite Hqa. reflexivity. }
  cbv zeta. unfold run. cbn [fold_left].
  change (step publicClient (InSession CallRetry) w0)
    with (session_step publicClient CallRetry w0).
  rewrite H1, H2.
  cbn [step session_step timers nth_error hook]. rewrite H3.
  unfold commit.
  cbn [fst snd hook calls timers watchers timers_of watchers_of flat_map app
       remove_nth firstn skipn transfer_call].
  rewrite !writes_of_app. cbn [writes_of flat_map app].
  rewrite !app_nil_r. repeat split.
Qed.

Lemma retry_timer_survives_reset_witness :
  queue (hook (run true
                 [InSession CallRetry; CallReset; InSession (TimerFires 0)]
                 (mkWorld batch_rejected [] [] []))) = []
  /\ write (hook (run true
                    [InSession CallRetry; CallReset; InSession (TimerFires 0)]
                    (mkWorld batch_rejected [] [] []))) = write_pending.
Proof.
  destruct (retry_timer_survives_reset true (mkWorld batch_rejected [] [] [])
              session_ab 2 eq_refl eq_refl ltac:(discriminate) eq_refl
              ltac:(cbn; lia) eq_refl)
    as (_ & Hq & _ & _ & _ & _ & Hw & _).
  split; [exact Hq | exact Hw].
Defined.

(** ** The failed token *)

Lemma queue_at_beyond (q : list Z) (i : Z) :
  len q <= i -> queue_at q i = None.
Proof.
  intros H. unfold queue_at. destruct (i <? 0); [reflexivity|].
  apply nth_error_None. unfold len in H. lia.
Qed.

(** X10.  [failedTokenId] names the token at the cursor exactly while the
    signer shows an error.  After [skip] it is always [undefined]: either
    the signer was reset, or the cursor has left the queue with the error
    still showing.  After [retry] it is [undefined] too. *)
Theorem failedTokenId_after_skip_and_retry (s : Hook) :
  (error (write s) = None -> failedTokenId s = None)
  /\ (error (write s) <> None ->
      failedTokenId s = queue_at (queue s) (currentIndex s))
  /\ (isTransferring s = true -> error (write s) <> None ->
      failedTokenId (fst (skip s)) = None
      /\ failedTokenId (fst (retry s)) = None
      /\ (error (write (fst (skip s))) = None
          <-> currentIndex s + 1 < len (queue s))).
Proof.
  split; [|split].
  - intros He. unfold failedTokenId. rewrite He. reflexivity.
  - intros He. unfold failedTokenId, currentTokenId.
    destruct (error (write s)); [reflexivity|contradiction].
  - intros Ht He. unfold skip, retry. rewrite Ht.
    destruct (error (write s)) as [e|] eqn:Ee; [|contradiction].
    cbn [negb defined orb]. cbv zeta.
    split; [|split; [reflexivity|]].
    + destruct (currentIndex s + 1 <? len (queue s)) eqn:E; zbool;
        [reflexivity|].
      unfold failedTokenId, currentTokenId. cbn. rewrite Ee. cbn.
      apply queue_at_beyond. lia.
    + destruct (currentIndex s + 1 <? len (queue s)) eqn:E; zbool; cbn.
      * split; [intros _; exact E | reflexivity].
      * rewrite Ee. split; [discriminate | lia].
Qed.

Lemma failedTokenId_after_skip_and_retry_witness :
  failedTokenId batch_rejected = Some 2
  /\ failedTokenId (fst (skip batch_rejected)) = None.
Proof.
  destruct (failedTokenId_after_skip_and_retry batch_rejected)
    as (_ & Hshow & Hafter).
  split.
  - rewrite Hshow by discriminate. reflexivity.
  - apply Hafter; [reflexivity | discriminate].
Defined.

(** ** [shortenAddress] *)

Lemma string_length_append (s1 s2 : string) :
  String.length (s1 ++ s2)%string
  = (String.length s1 + String.length s2)%nat.
Proof.
  induction s1 as [|c s1 IH]; [reflexivity|].
  change (String.length (String c (s1 ++ s2)%string)
          = S (String.length s1 + String.length s2)).
  cbn [String.length]. rewrite IH. reflexivity.
Qed.

Lemma string_length_substring (n m : nat) (s : string) :
  String.length (substring n m s) = Nat.min m (String.length s - n).
Proof.
  revert n m. induction s as [|c s IH]; intros n m.
  - destruct n, m; reflexivity.
  - destruct n as [|n].
    + destruct m as [|m]; [reflexivity|].
      cbn [substring String.length]. rewrite IH. lia.
    + cbn [substring String.length]. rewrite IH. lia.
Qed.

Lemma substring_whole (m : nat) (s : string) :
  (String.length s <= m)%nat -> substring 0 m s = s.
Proof.
  revert m. induction s as [|c s IH]; intros [|m] H; cbn in *;
    try reflexivity; try lia.
  rewrite IH by lia. reflexivity.
Qed.

(** The two slices of [shortenAddress] for a positive [chars]. *)
Lemma slice_prefix (s : string) (k : Z) :
  0 <= k ->
  slice s 0 (Some k) = substring 0 (Nat.min (Z.to_nat k) (String.length s)) s.
Proof.
  intros Hk. unfold slice, relative_index. cbn [Z.ltb Z.compare].
  destruct (k <? 0) eqn:E; zbool; [lia|].
  rewrite Z.min_l by lia. cbn [Z.to_nat]. f_equal. lia.
Qed.

Lemma slice_suffix (s : string) (k : Z) :
  1 <= k ->
  slice s (- k) None
  = substring (String.length s - Nat.min (Z.to_nat k) (String.length s))
              (Nat.min (Z.to_nat k) (String.length s)) s.
Proof.
  intros Hk. unfold slice, relative_index.
  destruct (- k <? 0) eqn:E; zbool; [|lia].
  f_equal; lia.
Qed.

Lemma shortenAddress_parts (address : string) (chars : Z) :
  address <> ""%string ->
  1 <= chars ->
  shortenAddress address chars
  = (substring 0 (Nat.min (Z.to_nat chars + 2) (String.length address))
               address
     ++ "..."
     ++ substring (String.length address
                   - Nat.min (Z.to_nat chars) (String.length address))
                  (Nat.min (Z.to_nat chars) (String.length address))
                  address)%string.
Proof.
  intros Hne Hc. unfold shortenAddress.
  destruct (String.eqb_spec address ""); [contradiction|].
  rewrite slice_prefix by lia. rewrite slice_suffix by lia.
  replace (Z.to_nat (chars + 2)) with (Z.to_nat chars + 2)%nat by lia.
  reflexivity.
Qed.

(** X11.  For a non-empty address and [chars >= 1], [shortenAddress] is the
    first [chars + 2] characters, three dots, and the last [chars]
    characters, each part cut to the length of the address.  The result has
    [min(chars+2, n) + 3 + min(chars, n)] characters, so it is shorter than
    the address exactly when the address has more than [2*chars + 5]
    characters. *)
Theorem shortenAddress_shape (address : string) (chars : Z) :
  address <> ""%string ->
  1 <= chars ->
  let n := String.length address in
  let c := Z.to_nat chars in
  shortenAddress address chars
  = (substring 0 (Nat.min (c + 2) n) address ++ "..."
     ++ substring (n - Nat.min c n) (Nat.min c n) address)%string
  /\ String.length (shortenAddress address chars)
     = (Nat.min (c + 2) n + 3 + Nat.min c n)%nat
  /\ ((String.length (shortenAddress address chars) < n)%nat
      <-> (2 * c + 5 < n)%nat).
Proof.
  intros Hne Hc n c.
  pose proof (shortenAddress_parts address chars Hne Hc) as Heq.
  fold n c in Heq.
  assert (Hlen : String.length (shortenAddress address chars)
                 = (Nat.min (c + 2) n + 3 + Nat.min c n)%nat).
  { rewrite Heq, !string_length_append, !string_length_substring.
    fold n. cbn [String.length]. lia. }
  split; [exact Heq|]. split; [exact Hlen|].
  rewrite Hlen. lia.
Qed.

Lemma shortenAddress_shape_witness :
  shortenAddress_default "0x52908400098527886E0F7030069857D2E4169EE7"
  = "0x5290...9EE7"%string.
Proof.
  unfold shortenAddress_default.
  destruct (shortenAddress_shape
              "0x52908400098527886E0F7030069857D2E4169EE7" 4
              ltac:(discriminate) ltac:(lia)) as (Heq & _).
  rewrite Heq. reflexivity.
Defined.

(** X12.  The edges of [shortenAddress].  The empty address gives the
    empty string.  With [chars = 0] the suffix is not empty but the whole
    address, since [slice(-0)] is [slice(0)].  An address of at most
    [chars] characters is not shortened: it comes back twice, with the dots
    between. *)
Theorem shortenAddress_edges (address : string) (chars : Z) :
  shortenAddress "" chars = ""%string
  /\ (address <> ""%string ->
      shortenAddress address 0
      = (substring 0 2 address ++ "..." ++ address)%string)
  /\ (address <> ""%string ->
      Z.of_nat (String.length address) <= chars ->
      shortenAddress address chars
      = (address ++ "..." ++ address)%string).
Proof.
  split; [reflexivity|]. split.
  - intros Hne. unfold shortenAddress.
    destruct (String.eqb_spec address ""); [contradiction|].
    rewrite slice_prefix by lia.
    unfold slice, relative_index. change (- 0) with 0.
    cbn [Z.ltb Z.compare]. rewrite Z.min_l by lia. cbn [Z.to_nat].
    rewrite Z.sub_0_r, Nat2Z.id. change (Z.to_nat 0) with 0%nat.
    rewrite (substring_whole (String.length address) address) by lia.
    f_equal.
    destruct address as [|a [|b rest]]; reflexivity.
  - intros Hne Hshort.
    assert (Hpos : 1 <= chars).
    { destruct address; [contradiction|]. cbn [String.length] in Hshort. lia. }
    rewrite (shortenAddress_parts address chars Hne Hpos).
    rewrite !Nat.min_r by lia. rewrite Nat.sub_diag.
    rewrite !(substring_whole (String.length address) address) by lia.
    reflexivity.
Qed.

Lemma shortenAddress_edges_witness :
  shortenAddress "0xab" 4 = "0xab...0xab"%string
  /\ shortenAddress "0xabcdef" 0 = "0x...0xabcdef"%string.
Proof.
  destruct (shortenAddress_edges "0xab" 4) as (_ & _ & Hshort).
  destruct (shortenAddress_edges "0xabcdef" 0) as (_ & Hzero & _).
  split.
  - apply Hshort; [discriminate | cbn; lia].
  - rewrite Hzero by discriminate. reflexivity.
Defined.

(** ** A hook that has not been started *)

Lemma length_remove_nth {A} (n : nat) (l : list A) :
  (length (remove_nth n l) <= length l)%nat.
Proof.
  unfold remove_nth. rewrite length_app, length_firstn, length_skipn. lia.
Qed.



(** ** Records beyond the queue *)

Lemma beyond_queue_same (s s' : Hook) :
  queue s' = queue s ->
  completedTransfers s' = completedTransfers s ->
  beyond_queue_only_skipped s -> beyond_queue_only_skipped s'.
Proof. unfold beyond_queue_only_skipped. intros -> ->. exact id. Qed.

Lemma beyond_queue_append (s s' : Hook) (r0 : TransferResult) :
  queue s' = queue s ->
  completedTransfers s' = completedTransfers s ++ [r0] ->
  ((length (queue s) <= length (completedTransfers s))%nat ->
   hash r0 = hash_0x) ->
  beyond_queue_only_skipped s -> beyond_queue_only_skipped s'.
Proof.
  unfold beyond_queue_only_skipped. intros -> -> Hr0 Hs n r Hn Hge.
  destruct (Nat.lt_ge_cases n (length (completedTransfers s))) as [Hlt|Hle].
  - rewrite nth_error_app1 in Hn by exact Hlt. apply (Hs n r Hn Hge).
  - rewrite nth_error_app2 in Hn by exact Hle.
    destruct (n - length (completedTransfers s))%nat as [|k] eqn:Ek.
    + cbn in Hn. injection Hn as <-. apply Hr0. lia.
    + cbn in Hn. destruct k; discriminate.
Qed.

Lemma beyond_queue_markStatus (s : Hook) (h : Hash) (st : Status) :
  beyond_queue_only_skipped s ->
  beyond_queue_only_skipped (setCompletedTransfers (markStatus h st) s).
Proof.
  unfold beyond_queue_only_skipped. intros Hs n r Hn Hge. cbn in Hn, Hge.
  rewrite markStatus_lookup in Hn.
  destruct (nth_error (completedTransfers s) n) as [r0|] eqn:E;
    [|discriminate].
  cbn in Hn. injection Hn as <-. specialize (Hs n r0 E Hge).
  destruct (decide (hash r0 = h)); exact Hs.
Qed.

Lemma executeCurrentTransfer_of_beyond r s :
  beyond_queue_only_skipped s ->
  beyond_queue_only_skipped (fst (executeCurrentTransfer_of r s)).
Proof.
  apply beyond_queue_same; unfold executeCurrentTransfer_of;
    destruct (r_transferParams r); try reflexivity;
    destruct (_ >=? _); try reflexivity;
    destruct (_ =? _); try reflexivity;
    destruct (isExecutingRef s); reflexivity.
Qed.

Lemma hashEffect_beyond publicClient s :
  records_follow_cursor s ->
  beyond_queue_only_skipped s ->
  beyond_queue_only_skipped (fst (hashEffect publicClient s)).
Proof.
  intros (_ & Hlen & _).
  destruct (data (write s)) as [h|] eqn:Hd.
  2:{ unfold hashEffect. rewrite Hd. exact id. }
  destruct (negb (isTransferring s) || (currentIndex s >=? len (queue s)))
    eqn:Hg.
  { unfold hashEffect. rewrite Hd, Hg. exact id. }
  destruct (decide (h ∈ processedHashesRef s)) as [Hin|Hnew].
  { unfold hashEffect. rewrite Hd, Hg.
    destruct (decide (h ∈ processedHashesRef s)); [exact id|contradiction]. }
  apply orb_false_elim in Hg as [Ht Hi]. apply negb_false_iff in Ht. zbool.
  rewrite (hashEffect_new_handle_eq publicClient s h Ht Hi Hd Hnew).
  cbv zeta.
  destruct (_ <? _);
    (eapply beyond_queue_append; [reflexivity|reflexivity|]);
    intros Hover; unfold len in *; lia.
Qed.

Lemma skip_beyond s :
  beyond_queue_only_skipped s -> beyond_queue_only_skipped (fst (skip s)).
Proof.
  unfold skip.
  destruct (negb (isTransferring s) || negb (defined (error (write s))));
    [exact id|].
  cbv zeta.
  destruct (_ <? _);
    (eapply beyond_queue_append; [reflexivity|reflexivity|]);
    intros _; reflexivity.
Qed.

Lemma run_beyond_queue publicClient (es : list Event) :
  forall w,
    records_follow_cursor (hook w) ->
    beyond_queue_only_skipped (hook w) ->
    beyond_queue_only_skipped (hook (run publicClient es w)).
Proof.
  induction es as [|e es IH]; intros w Hr Hw; [exact Hw|].
  change (run publicClient (e :: es) w)
    with (run publicClient es (step publicClient e w)).
  apply IH.
  { apply (run_records_follow_cursor publicClient [e] w Hr). }
  clear IH.
  destruct e as [params from_| |e]; cbn [step commit hook].
  - unfold startTransfer. destruct (_ =? _); [exact Hw|].
    intros [|n] r Hn; discriminate.
  - intros [|n] r Hn; discriminate.
  - destruct e; cbn [session_step commit hook].
    + unfold autoExecuteFirst. destruct (_ && _); [|exact Hw].
      apply executeCurrentTransfer_of_beyond, Hw.
    + apply hashEffect_beyond; assumption.
    + unfold autoExecuteNext.
      destruct (_ || _ || _); [exact Hw|].
      destruct (_ || _); [exact Hw|].
      destruct (_ =? _); exact Hw.
    + unfold checkDone. destruct (_ && _); exact Hw.
    + destruct (nth_error (timers w) n); [|exact Hw].
      cbn [hook commit]. apply executeCurrentTransfer_of_beyond, Hw.
    + unfold signerSettles. destruct (isPending _); exact Hw.
    + unfold signerSettles. destruct (isPending _); exact Hw.
    + destruct (nth_error (watchers w) n); [|exact Hw].
      cbn [hook commit receiptThen fst].
      apply beyond_queue_markStatus, Hw.
    + destruct (nth_error (watchers w) n); [|exact Hw].
      cbn [hook commit receiptCatch fst].
      apply beyond_queue_markStatus, Hw.
    + apply skip_beyond, Hw.
    + unfold retry.
      destruct (negb (isTransferring (hook w)) || _); exact Hw.
Qed.

(** ** Submission guards *)




(** ** What a run keeps when React renders between the calls *)

(** X5.  On a run from a mounted hook in which every callback and effect is
    called from the render of the state it finds, whatever the events and
    their order: the cursor is never negative; there are exactly
    [currentIndex] records; the record at each position carries the token
    the queue has at that position; and a record beyond the end of the queue
    has no token and the handle ["0x"], so only [skip] ever moves the cursor
    past the end, never a handle from the signer.  Without the condition it
    fails: when one handler calls [skip] twice, both calls read
    [currentIndex] from the same render and append by functional update,
    which leaves three records, two of them for token 2, with
    [currentIndex] 2. *)
Theorem records_follow_cursor_when_rendered publicClient
    (es : list ReactEvent) :
  (rendered_between_calls publicClient es mounted ->
   let s := hook (react_run publicClient es mounted) in
   0 <= currentIndex s
   /\ len (completedTransfers s) = currentIndex s
   /\ (forall n r,
         nth_error (completedTransfers s) n = Some r ->
         tokenId r = nth_error (queue s) n)
   /\ (forall n r,
         nth_error (completedTransfers s) n = Some r ->
         (length (queue s) <= n)%nat ->
         tokenId r = None /\ hash r = hash_0x)
   /\ (len (queue s) < currentIndex s ->
       exists r, In r (completedTransfers s)
                 /\ r = mkTransferResult None hash_0x (status r)))
  /\ (let s := hook (react_run true skip_twice_in_one_render mounted) in
      queue s = [1; 2; 3]
      /\ currentIndex s = 2
      /\ map tokenId (completedTransfers s) = [Some 1; Some 2; Some 2]).
Proof.
  split; [|vm_compute; repeat split; reflexivity].
  intros Hes. rewrite (react_run_latest publicClient es mounted Hes).
  set (es' := map latest es). intros s.
  destruct (run_records_follow_cursor publicClient es' mounted
              mounted_follows_cursor) as (Hpos & Hlen & Hrec).
  assert (Hbeyond : beyond_queue_only_skipped s).
  { apply (run_beyond_queue publicClient es' mounted mounted_follows_cursor).
    intros [|n] r Hn; discriminate. }
  fold s in Hpos, Hlen, Hrec.
  assert (Hover : forall n r,
            nth_error (completedTransfers s) n = Some r ->
            (length (queue s) <= n)%nat ->
            tokenId r = None /\ hash r = hash_0x).
  { intros n r Hn Hge. split; [|exact (Hbeyond n r Hn Hge)].
    rewrite (Hrec n r Hn). apply nth_error_None. exact Hge. }
  split; [exact Hpos|]. split; [exact Hlen|]. split; [exact Hrec|].
  split; [exact Hover|].
  intros Hgt. unfold len in *.
  destruct (nth_error (completedTransfers s) (length (queue s)))
    as [r|] eqn:E; [|apply nth_error_None in E; lia].
  exists r. split; [eapply nth_error_In; exact E|].
  destruct (Hover _ r E (Nat.le_refl _)) as [Htok Hhash].
  destruct r as [tk hs st]. cbn in *. subst. reflexivity.
Qed.

Lemma records_follow_cursor_when_rendered_witness :
  rendered_between_calls true skip_from_latest_render mounted
  /\ len (completedTransfers
            (hook (react_run true skip_from_latest_render mounted)))
     = currentIndex (hook (react_run true skip_from_latest_render mounted))
  /\ ~ rendered_between_calls true skip_twice_in_one_render mounted.
Proof.
  assert (Hes : rendered_between_calls true skip_from_latest_render mounted).
  { unfold skip_from_latest_render, first_token_refused.
    cbn [app rendered_between_calls from_current_render render_from].
    repeat split. }
  split; [exact Hes|]. split.
  - destruct (records_follow_cursor_when_rendered
                true skip_from_latest_render) as [Hok _].
    destruct (Hok Hes) as (_ & Hlen & _). exact Hlen.
  - intros H. vm_compute in H.
    destruct H as (_ & _ & _ & _ & _ & _ & _ & _ & Hstale & _).
    discriminate Hstale.
Defined.

(** X6.  On a run from a mounted hook in which every callback and effect is
    called from the render of the state it finds, a complete batch has its
    cursor exactly at the end of the queue: [isComplete] implies
    [allTransfersSubmitted], [currentIndex = totalCount], no pending
    confirmation, and a token in every record.  Without the condition it
    fails: after two calls of [skip] from one render and the receipt of
    token 1, the batch of three tokens is complete with [currentIndex] 2,
    [allTransfersSubmitted] false, and token 3 never sent. *)
Theorem complete_means_all_submitted_when_rendered publicClient
    (es : list ReactEvent) :
  (rendered_between_calls publicClient es mounted ->
   let s := hook (react_run publicClient es mounted) in
   isComplete s = true ->
   allTransfersSubmitted s = true
   /\ currentIndex s = totalCount s
   /\ pendingConfirmations s = 0
   /\ isConfirming s = false
   /\ Forall (fun r => tokenId r <> None) (completedTransfers s))
  /\ (let w := react_run true skip_twice_in_one_render mounted in
      isComplete (hook w) = true
      /\ currentIndex (hook w) = 2
      /\ totalCount (hook w) = 3
      /\ allTransfersSubmitted (hook w) = false
      /\ writes_of (calls w)
         = [WriteContract contract_c alice bob (Some 1);
            WriteContract contract_c alice bob (Some 2)]).
Proof.
  split; [|vm_compute; repeat split; reflexivity].
  intros Hes. rewrite (react_run_latest publicClient es mounted Hes).
  set (es' := map latest es). intros s Hc.
  destruct (run_records_follow_cursor publicClient es' mounted
              mounted_follows_cursor) as (Hpos & Hlen & Hrec).
  fold s in Hpos, Hlen, Hrec.
  destruct (derived_views_match_spec s)
    as (_ & _ & _ & _ & Hpend & Hiff).
  unfold isComplete in Hc. apply Hiff in Hc as (Hall & Htot & Hnp).
  assert (Hp0 : pendingConfirmations s = 0).
  { rewrite Hpend. clear - Hnp.
    induction Hnp as [|r l Hr _ IH]; [reflexivity|].
    cbn [spec_pendingCount]. rewrite IH.
    destruct (status r); [contradiction| |]; reflexivity. }
  split; [|split; [lia|split; [exact Hp0|split]]].
  - unfold allTransfersSubmitted. apply andb_true_intro. split.
    + apply Z.geb_le. lia.
    + rewrite Z.gtb_ltb. apply Z.ltb_lt. lia.
  - unfold isConfirming. rewrite Hp0. reflexivity.
  - apply List.Forall_forall. intros r Hr.
    apply In_nth_error in Hr as [n Hn].
    rewrite (Hrec n r Hn).
    assert (Hn' : (n < length (completedTransfers s))%nat)
      by (apply nth_error_Some; congruence).
    apply nth_error_Some. unfold totalCount, len in *. lia.
Qed.

Lemma complete_means_all_submitted_when_rendered_witness :
  rendered_between_calls true one_token_confirmed mounted
  /\ allTransfersSubmitted (hook (react_run true one_token_confirmed mounted))
     = true.
Proof.
  assert (Hes : rendered_between_calls true one_token_confirmed mounted).
  { unfold one_token_confirmed.
    cbn [app rendered_between_calls from_current_render render_from].
    repeat split. }
  split; [exact Hes|].
  destruct (complete_means_all_submitted_when_rendered
              true one_token_confirmed) as [Hok _].
  apply (Hok Hes). vm_compute. reflexivity.
Defined.
